(** * SolanaArbitrage: a shallow embedding of [flask_backend.py]

    The development follows the Python module function by function.

    - Python [float]s are read as exact rationals ([Q]); rounding is not
      modelled.  Comparisons of floats become decided comparisons on [Q].
    - The module's global variables ([current_opportunities],
      [price_history], [jupiter_quotes], [api_call_times]) are the fields of
      one [World] record that every operation threads through.
    - What the module obtains from outside is supplied by oracles: the
      builtin [hash] on strings, the successive readings of [time.time()],
      the outcomes of the successive [requests.get] calls and the draws of
      [random.uniform(0, 1)].  The world counts how many readings of each
      kind were consumed and logs every sleep.
    - Exceptions are results: an operation returns [Ret v] or [Raise e]
      together with the world it leaves behind. *)

From Stdlib Require Import ZArith QArith Qminmax Lqa String Ascii DecimalString.
From Stdlib Require Import Sorted.
From stdpp Require Import gmap strings list sorting.

Open Scope string_scope.
Open Scope list_scope.
Open Scope Q_scope.

(** ** Python primitives *)

#[global] Instance Qlt_decision (x y : Q) : Decision (x < y).
Proof.
  destruct (Qlt_le_dec x y) as [H|H].
  - left; exact H.
  - right; apply Qle_not_lt; exact H.
Defined.

#[global] Instance Qle_decision (x y : Q) : Decision (x <= y).
Proof.
  destruct (Qlt_le_dec y x) as [H|H].
  - right; apply Qlt_not_le; exact H.
  - left; exact H.
Defined.

#[global] Instance Qeq_decision (x y : Q) : Decision (x == y) := Qeq_dec x y.

(** [int(x)] on a float: truncation towards zero. *)
Definition py_int_of_float (x : Q) : Z := Z.quot (Qnum x) (Z.pos (Qden x)).

(** [str(n)] on an int. *)
Definition py_str_of_int (n : Z) : string := NilZero.string_of_int (Z.to_int n).

(** [s.replace(a, b)] for one-character [a] and [b]. *)
Fixpoint py_replace (a b : ascii) (s : string) : string :=
  match s with
  | EmptyString => EmptyString
  | String c rest =>
      String (if Ascii.eqb c a then b else c) (py_replace a b rest)
  end.

(** [needle in hay] on strings: substring test. *)
Definition py_str_in (needle hay : string) : bool :=
  match index 0 needle hay with
  | Some _ => true
  | None => false
  end.

(** [abs(n)], [min(a, b)] and [l[-n:]]. *)
Definition py_abs (n : Z) : Z := Z.abs n.
Definition py_min (a b : Q) : Q := if decide (b < a) then b else a.
Definition py_last (n : nat) {A : Type} (l : list A) : list A :=
  drop (length l - n) l.

(** ** Data *)

(** A quote dictionary: keys ['dex'], ['price'], ['liquidity'],
    ['slippage'], ['directRoute'], ['multiHopRoute'], ['fees'] and
    ['source'] (the last one is only ever read with [.get]). *)
Record Quote := mkQuote {
  q_dex : string;
  q_price : Q;
  q_liquidity : Q;
  q_slippage : Q;
  q_directRoute : list string;
  q_multiHopRoute : list string;
  q_fees : Q;
  q_source : option string
}.

(** An opportunity dictionary, key for key. *)
Record Opportunity := mkOpportunity {
  o_id : string;
  o_pair : string;
  o_buyDex : string;
  o_sellDex : string;
  o_buyPrice : Q;
  o_sellPrice : Q;
  o_spread : Q;
  o_estimatedProfit : Q;
  o_estimatedGas : Q;
  o_netProfit : Q;
  o_confidence : Q;
  o_timestamp : Z;
  o_route : list string;
  o_dataSource : string;
  o_buyLiquidity : Q;
  o_sellLiquidity : Q
}.

(** An entry of [jupiter_quotes]: [{'data': quotes, 'timestamp': t}]. *)
Record CachedQuotes := mkCachedQuotes {
  c_data : list Quote;
  c_timestamp : Q
}.

(** A step of a Jupiter route plan; [swapInfo] and its keys may be absent. *)
Record SwapInfo := mkSwapInfo {
  s_ammKey : option string;
  s_programId : option string;
  s_inputMint : option string
}.

Record RouteStep := mkRouteStep {
  r_swapInfo : option SwapInfo;
  r_feeAmount : option Q
}.

(** ** Configuration constants *)

Definition JUPITER_QUOTE_API : string := "https://quote-api.jup.ag/v6/quote".
Definition COINGECKO_API : string := "https://api.coingecko.com/api/v3/simple/price".

(** [TRADING_PAIRS], in insertion order: pair, input mint, output mint. *)
Definition TRADING_PAIRS : list (string * (string * string)) :=
  [ ("SOL/USDC", ("So11111111111111111111111111111111111111112",
                  "EPjFWdd5AufqSSqeM2qN1xzybapC8G4wEGGkZwyTDt1v"));
    ("RAY/USDC", ("4k3Dyjzvzp8eMZWUXbBCjEvwSkkk59S5iCNLY3QrkX6R",
                  "EPjFWdd5AufqSSqeM2qN1xzybapC8G4wEGGkZwyTDt1v"));
    ("ORCA/USDC", ("orcaEKTdK7LKz57vaAYr9QeNsVEPfiu6QeMU1kektZE",
                   "EPjFWdd5AufqSSqeM2qN1xzybapC8G4wEGGkZwyTDt1v"));
    ("BONK/USDC", ("DezXAZ8z7PnrnRJjz3wXBoRgixCa6xjnB7YaB1pPB263",
                   "EPjFWdd5AufqSSqeM2qN1xzybapC8G4wEGGkZwyTDt1v"));
    ("JUP/USDC", ("JUPyiwrYJFskUPiHa7hkeR8VUtAeFoSYbKedZNsDvCN",
                  "EPjFWdd5AufqSSqeM2qN1xzybapC8G4wEGGkZwyTDt1v")) ].

(** [DEX_PROGRAM_IDS], in insertion order. *)
Definition DEX_PROGRAM_IDS : list (string * list string) :=
  [ ("Raydium", ["675kPX9MHTjS2zt1qfr1NYHuzeLXfQM9H24wFSUt1Mp8"]);
    ("Orca", ["whirLbMiicVdio4qvUfM5KAg6Ct8VwpYzGff3uctyCc"]);
    ("Lifinity", ["EewxydAPCCVuNEyrVN68PuSYdQ7wKn27V9Gjeoi8dy3S"]) ].

Definition MAX_CALLS_PER_MINUTE : gmap string nat :=
  {[ "jupiter" := 10%nat; "coingecko" := 15%nat ]}.

(** ** The world and the monad of operations *)

Record World := mkWorld {
  current_opportunities : list Opportunity;
  price_history : gmap string (list Q);
  jupiter_quotes : gmap string CachedQuotes;
  api_call_times : gmap string (list Q);
  clock_reads : nat;     (* readings of [time.time()] consumed *)
  http_calls : nat;      (* [requests.get] calls issued *)
  uniform_draws : nat;   (* draws of [random.uniform(0, 1)] consumed *)
  slept : list Q         (* durations slept, oldest first *)
}.

(** The module's globals when it is loaded. *)
Definition initial_world : World :=
  {| current_opportunities := [];
     price_history := ∅;
     jupiter_quotes := ∅;
     api_call_times := {[ "jupiter" := []; "coingecko" := [] ]};
     clock_reads := 0;
     http_calls := 0;
     uniform_draws := 0;
     slept := [] |}.

Definition set_current_opportunities (v : list Opportunity) (w : World) : World :=
  mkWorld v (price_history w) (jupiter_quotes w) (api_call_times w)
          (clock_reads w) (http_calls w) (uniform_draws w) (slept w).
Definition set_price_history (v : gmap string (list Q)) (w : World) : World :=
  mkWorld (current_opportunities w) v (jupiter_quotes w) (api_call_times w)
          (clock_reads w) (http_calls w) (uniform_draws w) (slept w).
Definition set_api_call_times (v : gmap string (list Q)) (w : World) : World :=
  mkWorld (current_opportunities w) (price_history w) (jupiter_quotes w) v
          (clock_reads w) (http_calls w) (uniform_draws w) (slept w).
Definition set_clock_reads (v : nat) (w : World) : World :=
  mkWorld (current_opportunities w) (price_history w) (jupiter_quotes w)
          (api_call_times w) v (http_calls w) (uniform_draws w) (slept w).
Definition set_http_calls (v : nat) (w : World) : World :=
  mkWorld (current_opportunities w) (price_history w) (jupiter_quotes w)
          (api_call_times w) (clock_reads w) v (uniform_draws w) (slept w).
Definition set_uniform_draws (v : nat) (w : World) : World :=
  mkWorld (current_opportunities w) (price_history w) (jupiter_quotes w)
          (api_call_times w) (clock_reads w) (http_calls w) v (slept w).
Definition set_slept (v : list Q) (w : World) : World :=
  mkWorld (current_opportunities w) (price_history w) (jupiter_quotes w)
          (api_call_times w) (clock_reads w) (http_calls w) (uniform_draws w) v.

Inductive exn := KeyError | ZeroDivisionError | ValueError | RequestException.

Inductive result (A : Type) :=
| Ret (a : A)
| Raise (e : exn).
Arguments Ret {A} a.
Arguments Raise {A} e.

Definition M (A : Type) : Type := World -> result A * World.

Definition ret {A : Type} (a : A) : M A := fun w => (Ret a, w).
Definition raise {A : Type} (e : exn) : M A := fun w => (Raise e, w).
Definition bind {A B : Type} (c : M A) (k : A -> M B) : M B :=
  fun w =>
    match c w with
    | (Ret a, w') => k a w'
    | (Raise e, w') => (Raise e, w')
    end.

(** [try: c  except Exception: h] *)
Definition try_except {A : Type} (c : M A) (h : exn -> M A) : M A :=
  fun w =>
    match c w with
    | (Ret a, w') => (Ret a, w')
    | (Raise e, w') => h e w'
    end.

Notation "'let*' x ':=' c 'in' k" := (bind c (fun x => k))
  (at level 10, x name, c at level 100, k at level 200).
Notation "'run' c 'in' k" := (bind c (fun _ => k))
  (at level 10, c at level 100, k at level 200).

Definition get {A : Type} (f : World -> A) : M A := fun w => (Ret (f w), w).
Definition modify (f : World -> World) : M unit := fun w => (Ret tt, f w).

(** [d[k]] on a dictionary: [KeyError] when the key is missing. *)
Definition subscript {V : Type} (d : gmap string V) (k : string) : M V :=
  match d !! k with
  | Some v => ret v
  | None => raise KeyError
  end.

(** [for x in xs: acc = body(x, acc)], left to right. *)
Fixpoint for_each {A S : Type} (xs : list A) (body : A -> S -> M S) (acc : S) : M S :=
  match xs with
  | [] => ret acc
  | x :: rest => let* acc' := body x acc in for_each rest body acc'
  end.

(** [enumerate(xs)] *)
Definition enumerate {A : Type} (xs : list A) : list (nat * A) :=
  zip (seq 0 (length xs)) xs.

(** What one iteration of a [for] loop with early [return] decides. *)
Inductive loop_ctl (R : Type) :=
| Next
| Return (r : R).
Arguments Next {R}.
Arguments Return {R} r.

(** [for attempt in attempts: body(attempt)], then [return None] after the loop. *)
Fixpoint for_attempts {R : Type} (attempts : list nat)
    (body : nat -> M (loop_ctl (option R))) : M (option R) :=
  match attempts with
  | [] => ret None
  | attempt :: rest =>
      let* ctl := body attempt in
      match ctl with
      | Next => for_attempts rest body
      | Return r => ret r
      end
  end.

(** The outcome of one [requests.get]: the call raises (timeout, connection
    error), or it answers with a status code and a body that
    [response.json()] parses ([Some]) or rejects ([None]). *)
Inductive Reply (J : Type) :=
| Raises
| Answers (status_code : Z) (body : option J).
Arguments Raises {J}.
Arguments Answers {J} status_code body.

(** What [simulate_trade] sends back. *)
Inductive TradeResponse :=
| TradeNotFound   (* [{'error': 'Opportunity not found'}], status 404 *)
| TradeDone (executionTime : Z) (originalEstimate actualProfit slippageImpact gasUsed : Q)
            (route : list string) (timestamp : Z).

Definition status_of (r : TradeResponse) : Z :=
  match r with
  | TradeNotFound => 404
  | TradeDone _ _ _ _ _ _ _ => 200
  end.

(** The body of [/api/arbitrage/opportunities]. *)
Record OpportunitiesResponse := mkOpportunitiesResponse {
  opportunities : list Opportunity;
  totalCount : nat;
  resp_timestamp : Z
}.

(** The body of [/api/price-history/<pair>]. *)
Record HistoryResponse := mkHistoryResponse {
  h_pair : string;
  h_history : list Q;
  h_timestamp : Z
}.

(** ** The module's functions *)

Section Backend.

(** The builtin [hash] on strings, the readings of [time.time()] in the
    order they are taken, and the draws of [random.uniform(0, 1)]. *)
Variable hash : string -> Z.
Variable clock : nat -> Q.
Variable uniform : nat -> Q.

Definition time_time : M Q :=
  fun w => (Ret (clock (clock_reads w)), set_clock_reads (S (clock_reads w)) w).

Definition random_uniform_0_1 : M Q :=
  fun w => (Ret (uniform (uniform_draws w)),
            set_uniform_draws (S (uniform_draws w)) w).

(** [await asyncio.sleep(d)] and [time.sleep(d)]. *)
Definition sleep (d : Q) : M unit :=
  modify (fun w => set_slept (slept w ++ [d]) w).

(** *** [rate_limit_check] *)

Definition rate_limit_check (api_name : string) : M bool :=
  let* current_time := time_time in
  (* Remove calls older than 1 minute *)
  let* times := get api_call_times in
  let* calls := subscript times api_name in
  let kept := filter (fun t => current_time - t < 60) calls in
  run modify (fun w => set_api_call_times (<[api_name := kept]> (api_call_times w)) w) in
  (* Check if we can make another call *)
  let* limit := subscript MAX_CALLS_PER_MINUTE api_name in
  if (limit <=? length kept)%nat then ret false
  else
    (* Record this call *)
    run modify (fun w => set_api_call_times
                           (<[api_name := kept ++ [current_time]]> (api_call_times w)) w) in
    ret true.

(** A driver for the statements about the limiter: [n] successive calls
    of [rate_limit_check] on one source, with the time each call read and
    what it answered. *)
Fixpoint rate_limit_calls (api_name : string) (n : nat) : M (list (Q * bool)) :=
  match n with
  | O => ret []
  | S k =>
      let* now := get (fun w => clock (clock_reads w)) in
      let* ok := rate_limit_check api_name in
      let* rest := rate_limit_calls api_name k in
      ret ((now, ok) :: rest)
  end.

(** The timestamps of the calls that were let through. *)
Definition granted (log : list (Q * bool)) : list Q :=
  fst <$> filter (fun c => snd c = true) log.

(** The calls let through in the 60 time-units that end at [t]. *)
Definition granted_in_window (t : Q) (log : list (Q * bool)) : list Q :=
  filter (fun s => s <= t /\ t - s < 60) (granted log).

(** *** [get_jupiter_quote_with_retry], [get_coingecko_prices_with_retry] *)

(** The parsed body of a reply, and the outcomes of the [requests.get]
    calls in the order they are issued. *)
Variable Json : Type.
Variable http : nat -> Reply Json.

Definition requests_get (url : string) : M (Z * option Json) :=
  fun w =>
    let w' := set_http_calls (S (http_calls w)) w in
    match http (http_calls w) with
    | Raises => (Raise RequestException, w')
    | Answers status_code body => (Ret (status_code, body), w')
    end.

Definition response_json (response : Z * option Json) : M Json :=
  match snd response with
  | Some parsed => ret parsed
  | None => raise ValueError
  end.

(** One pass through the body of [for attempt in range(max_retries + 1)].
    The two functions have the same body up to the source name, the
    endpoint and the request parameters. *)
Definition fetch_attempt (api_name url : string) (max_retries attempt : nat)
  : M (loop_ctl (option Json)) :=
  try_except
    ((* Check rate limit *)
     let* ok := rate_limit_check api_name in
     if negb ok then ret (Return None)
     else
       let* response := requests_get url in
       if (fst response =? 200)%Z then
         let* parsed := response_json response in
         ret (Return (Some parsed))
       else if (fst response =? 429)%Z then
         (* Rate limited, wait with exponential backoff *)
         let* jitter := random_uniform_0_1 in
         let wait_time := inject_Z (2 ^ Z.of_nat attempt) + jitter in
         if (attempt <? max_retries)%nat then
           run sleep wait_time in ret Next
         else ret (Return None)
       else ret (Return None))
    (fun e =>
       if (attempt <? max_retries)%nat then
         let* jitter := random_uniform_0_1 in
         let wait_time := inject_Z (2 ^ Z.of_nat attempt) + jitter in
         run sleep wait_time in ret Next
       else ret (Return None)).

Definition get_jupiter_quote_with_retry (input_mint output_mint : string)
    (amount : Z) (max_retries : nat) : M (option Json) :=
  for_attempts (seq 0 (max_retries + 1))
               (fetch_attempt "jupiter" JUPITER_QUOTE_API max_retries).

Definition get_coingecko_prices_with_retry (token_ids : list string)
    (max_retries : nat) : M (option Json) :=
  for_attempts (seq 0 (max_retries + 1))
               (fetch_attempt "coingecko" COINGECKO_API max_retries).

(** The callers use the default [max_retries = 2]. *)
Definition get_jupiter_quote (input_mint output_mint : string) (amount : Z)
  : M (option Json) :=
  get_jupiter_quote_with_retry input_mint output_mint amount 2.

Definition get_coingecko_prices (token_ids : list string) : M (option Json) :=
  get_coingecko_prices_with_retry token_ids 2.

(** *** [identify_dex_from_route] *)

(** [for dex_name, program_ids in DEX_PROGRAM_IDS.items():
       if any(pid in program_id for pid in program_ids): return dex_name] *)
Definition dex_of_program_id (program_id : string) : option string :=
  fst <$> List.find
            (fun entry => existsb (fun pid => py_str_in pid program_id) (snd entry))
            DEX_PROGRAM_IDS.

(** [for step in route_plan: ...], [Some] when the loop returns. *)
Fixpoint scan_route (route_plan : list RouteStep) : option string :=
  match route_plan with
  | [] => None
  | step :: rest =>
      match r_swapInfo step with
      | Some info =>
          let program_id := default "" (s_programId info) in
          match dex_of_program_id program_id with
          | Some dex_name => Some dex_name
          | None => scan_route rest
          end
      | None => scan_route rest
      end
  end.

Definition identify_dex_from_route (route_plan : list RouteStep) : string :=
  match route_plan with
  | [] => "Unknown"
  | _ :: _ =>
      match scan_route route_plan with
      | Some dex_name => dex_name
      | None =>
          (* Fallback based on route plan structure *)
          if (length route_plan =? 1)%nat then "Raydium"
          else if (1 <? length route_plan)%nat then "Orca"
          else "Lifinity"
      end
  end.

(** *** [generate_arbitrage_opportunities] *)

(** [a / b] on floats. *)
Definition py_div (a b : Q) : M Q :=
  if Qeq_bool b 0 then raise ZeroDivisionError else ret (a / b).

(** The body of the two nested loops for one ordered couple of quotes. *)
Definition consider (pair : string) (buy sell : nat * Quote)
    (found : list Opportunity) : M (list Opportunity) :=
  let '(i, buy_quote) := buy in
  let '(j, sell_quote) := sell in
  if (i =? j)%nat then ret found
  else
    let* ratio := py_div (q_price sell_quote - q_price buy_quote) (q_price buy_quote) in
    let spread := ratio * 100 in
    if decide (0.1 < spread) then
      let estimated_profit :=
        spread - (q_slippage buy_quote * 100) - (q_slippage sell_quote * 100) in
      let estimated_gas :=
        0.01 + inject_Z (hash (q_dex buy_quote +:+ q_dex sell_quote) mod 20) / 1000 in
      let net_profit := estimated_profit - estimated_gas in
      if decide (0 < net_profit) then
        let confidence :=
          py_min ((q_liquidity buy_quote + q_liquidity sell_quote) / 20000 * 40 +
                  py_min (spread / 2) 1 * 30 +
                  inject_Z (100 - py_abs (hash pair mod 30)) / 100 * 30)
                 100 in
        let buy_source := default "unknown" (q_source buy_quote) in
        let sell_source := default "unknown" (q_source sell_quote) in
        let data_source :=
          if String.eqb buy_source sell_source then buy_source
          else buy_source +:+ "/" +:+ sell_source in
        let* id_time := time_time in
        let* stamp_time := time_time in
        let opportunity :=
          {| o_id := py_replace "/" "-" pair +:+ "-" +:+ q_dex buy_quote +:+ "-" +:+
                     q_dex sell_quote +:+ "-" +:+
                     py_str_of_int (py_int_of_float (id_time * 1000));
             o_pair := pair;
             o_buyDex := q_dex buy_quote;
             o_sellDex := q_dex sell_quote;
             o_buyPrice := q_price buy_quote;
             o_sellPrice := q_price sell_quote;
             o_spread := spread;
             o_estimatedProfit := estimated_profit;
             o_estimatedGas := estimated_gas;
             o_netProfit := net_profit;
             o_confidence := confidence;
             o_timestamp := py_int_of_float (stamp_time * 1000);
             o_route := ["Buy on " +:+ q_dex buy_quote; "Sell on " +:+ q_dex sell_quote];
             o_dataSource := data_source;
             o_buyLiquidity := q_liquidity buy_quote;
             o_sellLiquidity := q_liquidity sell_quote |} in
        ret (found ++ [opportunity])
      else ret found
    else ret found.

(** Find arbitrage opportunities between DEXs: the loops over
    [enumerate(quotes)] for one pair, appending to [found]. *)
Definition detect (pair : string) (quotes : list Quote)
    (found : list Opportunity) : M (list Opportunity) :=
  for_each (enumerate quotes)
           (fun buy found1 =>
              for_each (enumerate quotes)
                       (fun sell found2 => consider pair buy sell found2)
                       found1)
           found.

(** [opportunities.sort(key=lambda x: x['netProfit'], reverse=True)]:
    the stable sort by decreasing key, written as an insertion sort. *)
Fixpoint insert_desc (x : Opportunity) (l : list Opportunity) : list Opportunity :=
  match l with
  | [] => [x]
  | y :: rest =>
      if decide (o_netProfit x < o_netProfit y) then y :: insert_desc x rest
      else x :: y :: rest
  end.

Definition sort_by_netProfit_desc (l : list Opportunity) : list Opportunity :=
  foldr insert_desc [] l.

(** The body of [for opp in current_opportunities] that updates the history. *)
Definition record_spread (opp : Opportunity) (history : gmap string (list Q))
  : gmap string (list Q) :=
  let history1 :=
    match history !! o_pair opp with
    | None => <[o_pair opp := []]> history
    | Some _ => history
    end in
  let series := default [] (history1 !! o_pair opp) ++ [o_spread opp] in
  let history2 := <[o_pair opp := series]> history1 in
  if (50 <? length series)%nat then <[o_pair opp := py_last 50 series]> history2
  else history2.

(** The body of [for pair in TRADING_PAIRS.keys()]: a pair whose quotes
    are missing or older than 5 time-units is skipped. *)
Definition scan_pair (pair : string) (found : list Opportunity)
  : M (list Opportunity) :=
  (* Use cached quotes or fetch new ones *)
  let quotes_key := "quotes_" +:+ pair in
  let* cache := get jupiter_quotes in
  match cache !! quotes_key with
  | None => ret found
  | Some entry =>
      let* now := time_time in
      if decide (5 < now - c_timestamp entry) then ret found
      else detect pair (c_data entry) found
  end.

Definition generate_arbitrage_opportunities : M unit :=
  let* found := for_each (fst <$> TRADING_PAIRS) scan_pair [] in
  (* Sort by net profit and keep top 10 *)
  let sorted := sort_by_netProfit_desc found in
  run modify (set_current_opportunities (take 10 sorted)) in
  (* Update price history *)
  let* published := get current_opportunities in
  modify (fun w => set_price_history (foldl (fun h opp => record_spread opp h)
                                            (price_history w) published) w).

(** *** [simulate_trade] *)

Definition simulate_trade (opportunityId : option string) (amount : option Z)
  : M TradeResponse :=
  let amount := default 1000%Z amount in
  (* Find the opportunity *)
  let* published := get current_opportunities in
  let opportunity :=
    match opportunityId with
    | Some wanted => List.find (fun opp => String.eqb (o_id opp) wanted) published
    | None => None
    end in
  match opportunity with
  | None => ret TradeNotFound
  | Some opportunity =>
      let opportunity_id := default "" opportunityId in
      (* Simulate execution *)
      let execution_latency := (100 + hash opportunity_id mod 500)%Z in
      let slippage_impact :=
        0.1 + inject_Z (hash (opportunity_id +:+ py_str_of_int amount) mod 50) / 100 in
      let actual_profit :=
        o_netProfit opportunity * (inject_Z amount / 1000) * (1 - slippage_impact / 100) in
      (* Simulate delay *)
      run sleep (inject_Z execution_latency / 1000) in
      let* now := time_time in
      ret (TradeDone execution_latency (o_netProfit opportunity) actual_profit
                     slippage_impact (o_estimatedGas opportunity)
                     (o_route opportunity) (py_int_of_float (now * 1000)))
  end.

(** *** [get_arbitrage_opportunities] *)

(** [float(s)] and [int(s)] on the text of a query parameter; [None] when
    Python raises [ValueError]. *)
Variable float_of_str : string -> option Q.
Variable int_of_str : string -> option Z.

Definition py_float (s : string) : M Q :=
  match float_of_str s with
  | Some x => ret x
  | None => raise ValueError
  end.

Definition py_int (s : string) : M Z :=
  match int_of_str s with
  | Some n => ret n
  | None => raise ValueError
  end.

(** [not pair_filter or pair_filter == 'All' or opp['pair'] == pair_filter] *)
Definition pair_selected (pair_filter : option string) (opp : Opportunity) : bool :=
  match pair_filter with
  | None => true
  | Some wanted =>
      String.eqb wanted "" || String.eqb wanted "All" || String.eqb (o_pair opp) wanted
  end.

Definition get_arbitrage_opportunities (args : gmap string string)
  : M OpportunitiesResponse :=
  let* min_pnl :=
    match args !! "minPnl" with
    | Some text => py_float text
    | None => ret 0
    end in
  let* max_latency :=
    match args !! "maxLatency" with
    | Some text => py_int text
    | None => ret 1000%Z
    end in
  let pair_filter := args !! "pair" in
  let* published := get current_opportunities in
  let filtered_opportunities :=
    List.filter (fun opp => bool_decide (min_pnl <= o_netProfit opp) &&
                            pair_selected pair_filter opp)
                published in
  let* now := time_time in
  ret {| opportunities := filtered_opportunities;
         totalCount := length filtered_opportunities;
         resp_timestamp := py_int_of_float (now * 1000) |}.

(** *** [get_price_history] *)

(** [variation] for index [i]: [(hash(f"{formatted_pair}{i}") % 200 - 100) / 10000]. *)
Definition variation (formatted_pair : string) (i : nat) : Q :=
  inject_Z (hash (formatted_pair +:+ py_str_of_int (Z.of_nat i)) mod 200 - 100) / 10000.

(** The loop [for i in range(...)]: each point is the previous one moved
    by [variation]. *)
Fixpoint synthetic_history (formatted_pair : string) (indices : list nat)
    (base_price : Q) : list Q :=
  match indices with
  | [] => []
  | i :: rest =>
      let new_price := base_price * (1 + variation formatted_pair i) in
      new_price :: synthetic_history formatted_pair rest new_price
  end.

Definition get_price_history (pair : string) : M HistoryResponse :=
  (* Convert pair format (e.g., SOL-USDC to SOL/USDC) *)
  let formatted_pair := py_replace "-" "/" pair in
  let* stored := get price_history in
  let history := default [] (stored !! formatted_pair) in
  let history :=
    if (length history <? 20)%nat then
      let base_price := default 1 (last history) in
      synthetic_history formatted_pair (seq 0 (20 - length history)) base_price
        ++ history
    else history in
  let* now := time_time in
  ret {| h_pair := formatted_pair;
         h_history := py_last 20 history;
         h_timestamp := py_int_of_float (now * 1000) |}.

End Backend.

(** ** Vocabulary of the statements *)

(** What the rate limiter maintains for one source: its stored list is
    the part of the granted timestamps [seen] still within 60 time-units of
    the last reading [T], it never holds more than [budget] entries, and no
    window of 60 time-units holds more than [budget] granted calls. *)
Definition window_inv (clock : nat -> Q) (api_name : string) (budget : nat)
    (seen : list Q) (w : World) : Prop :=
  exists (T : Q) (l : list Q),
    api_call_times w !! api_name = Some l /\
    l = filter (fun t => T - t < 60) seen /\
    (length l <= budget)%nat /\
    Forall (fun t => t <= T) seen /\
    T <= clock (clock_reads w) /\
    forall t : Q, (length (filter (fun s : Q => (s <= t /\ t - s < 60)%Q) seen) <= budget)%nat.

(** The powers of two waited for at the attempts below [max_retries]. *)
Definition backoff_sum (max_retries : nat) (attempts : list nat) : Q :=
  foldr Qplus 0
        ((fun i => inject_Z (2 ^ Z.of_nat i)) <$>
           filter (fun i => (i < max_retries)%nat) attempts).

(** What is stated of one fetch function called with [max_retries]: it
    returns, having issued at most [max_retries + 1] requests and slept
    at most [max_retries] times, for no longer in total than the powers of
    two [2^0 + ... + 2^(max_retries-1)] plus one time-unit of jitter for
    each sleep. *)
Definition fetch_bounded {Json : Type} (fetch : M (option Json)) (max_retries : nat) : Prop :=
  forall w : World,
  exists r w' waits,
    fetch w = (Ret r, w') /\
    (http_calls w' <= http_calls w + (max_retries + 1))%nat /\
    slept w' = slept w ++ waits /\
    (length waits <= max_retries)%nat /\
    foldr Qplus 0 waits <=
      foldr Qplus 0 ((fun i => inject_Z (2 ^ Z.of_nat i)) <$> seq 0 max_retries)
      + inject_Z (Z.of_nat (length waits)).

(** No step of the route carries a program identifier that contains an
    entry of [DEX_PROGRAM_IDS]. *)
Definition unmatched (route_plan : list RouteStep) : Prop :=
  forall step info, step ∈ route_plan -> r_swapInfo step = Some info ->
  forall dex_name program_ids pid,
    (dex_name, program_ids) ∈ DEX_PROGRAM_IDS -> pid ∈ program_ids ->
    py_str_in pid (default "" (s_programId info)) = false.

(** Two worlds with the same module globals. *)
Definition same_globals (w w' : World) : Prop :=
  current_opportunities w' = current_opportunities w /\
  price_history w' = price_history w /\
  jupiter_quotes w' = jupiter_quotes w /\
  api_call_times w' = api_call_times w.

(** Decreasing order of [netProfit], and a positive [netProfit]. *)
Definition by_netProfit_desc (a b : Opportunity) : Prop :=
  o_netProfit b <= o_netProfit a.

Definition profitable (o : Opportunity) : Prop := 0 < o_netProfit o.

(** What a caller of [/api/arbitrage/opportunities] looks at here: the
    list and its count, or the exception. *)
Definition listing (r : result OpportunitiesResponse)
  : result (list Opportunity * nat) :=
  match r with
  | Ret resp => Ret (opportunities resp, totalCount resp)
  | Raise e => Raise e
  end.

(** A reply after which the fetch functions try again: the request
    raised, the provider answered 429, or it answered 200 with a body
    that does not parse. *)
Definition retried {J : Type} (reply : Reply J) : Prop :=
  match reply with
  | Raises => True
  | Answers status_code body =>
      status_code = 429%Z \/ (status_code = 200%Z /\ body = None)
  end.

(** What holds of every opportunity the detection emits for [pair]. *)
Definition sound_opportunity (hash : string -> Z) (o : Opportunity) : Prop :=
  ~ o_buyPrice o == 0 /\
  o_spread o = (o_sellPrice o - o_buyPrice o) / o_buyPrice o * 100 /\
  0.1 < o_spread o /\
  o_estimatedGas o =
    0.01 + inject_Z (hash (o_buyDex o +:+ o_sellDex o) mod 20) / 1000 /\
  o_netProfit o = o_estimatedProfit o - o_estimatedGas o /\
  0 < o_netProfit o /\
  o_confidence o <= 100 /\
  o_route o = ["Buy on " +:+ o_buyDex o; "Sell on " +:+ o_sellDex o].

(** The cache entry of a pair cannot yield an opportunity: it holds at
    most one quote, or it is stale at every reading of the clock. *)
Definition unusable (clock : nat -> Q) (entry : CachedQuotes) : Prop :=
  (length (c_data entry) <= 1)%nat \/ forall n, 5 < clock n - c_timestamp entry.

(** ** Sample oracles and worlds *)

(** A clock that advances by [step] at every reading, and one that stands
    still. *)
Definition steady_clock (step : Z) : nat -> Q :=
  fun n => inject_Z (Z.of_nat n * step).
Definition frozen_clock : nat -> Q := fun _ => 0.

(** A [hash] that maps every string to 0. *)
Definition zero_hash : string -> Z := fun _ => 0%Z.

(** A provider that answers 429 to every request, and jitter that is
    always one half. *)
Definition always_throttled : nat -> Reply unit := fun _ => Answers 429 None.
Definition half_jitter : nat -> Q := fun _ => 1 # 2.

(** [int()] and [float()] restricted to plain decimal integer literals;
    every other text is rejected. *)
Definition decimal_int (s : string) : option Z :=
  Z.of_int <$> NilZero.int_of_string s.
Definition decimal_float (s : string) : option Q :=
  inject_Z <$> decimal_int s.

(** Fresh quotes for SOL/USDC on three venues, at prices 100, 101, 102. *)
Definition venue_quote (dex : string) (price : Q) : Quote :=
  {| q_dex := dex;
     q_price := price;
     q_liquidity := 500000;
     q_slippage := 0.001;
     q_directRoute := ["SOL"; dex; "USDC"];
     q_multiHopRoute := ["SOL"; "WSOL"; "USDC"];
     q_fees := 0.0025;
     q_source := Some "jupiter" |}.

Definition three_venue_world : World :=
  {| current_opportunities := [];
     price_history := ∅;
     jupiter_quotes :=
       {[ "quotes_SOL/USDC" :=
            {| c_data := [ venue_quote "Raydium" 100; venue_quote "Orca" 101;
                           venue_quote "Lifinity" 102 ];
               c_timestamp := 0 |} ]};
     api_call_times := {[ "jupiter" := []; "coingecko" := [] ]};
     clock_reads := 0;
     http_calls := 0;
     uniform_draws := 0;
     slept := [] |}.

(** The world after one run of the generation step over those quotes. *)
Definition published_world : World :=
  snd (generate_arbitrage_opportunities zero_hash frozen_clock three_venue_world).

(** The primary source's window already holds its 10 calls. *)
Definition saturated_world : World :=
  set_api_call_times
    {[ "jupiter" := replicate 10 0; "coingecko" := [] ]} initial_world.

(** Two spreads stored for SOL/USDC: 1 (the older), then 2. *)
Definition two_spread_world : World :=
  set_price_history {[ "SOL/USDC" := [1; 2] ]} initial_world.

(** A route of two steps, neither on a known program. *)
Definition unknown_two_hop_route : list RouteStep :=
  [ mkRouteStep
      (Some (mkSwapInfo (Some "amm1") (Some "11111111111111111111111111111111") None))
      None;
    mkRouteStep (Some (mkSwapInfo None None (Some "mint"))) (Some 5) ].

(** A clock that always reads 100. *)
Definition late_clock : nat -> Q := fun _ => 100.

(** A provider that answers 500 to every request, and one that answers
    200 with a body to every request. *)
Definition always_failing : nat -> Reply unit := fun _ => Answers 500 None.
Definition always_answering : nat -> Reply unit := fun _ => Answers 200 (Some tt).

(** A step on an unknown program, one on the Orca program and one on the
    Raydium program. *)
Definition unknown_step : RouteStep :=
  mkRouteStep (Some (mkSwapInfo None (Some "11111111111111111111111111111111") None)) None.
Definition orca_step : RouteStep :=
  mkRouteStep
    (Some (mkSwapInfo None (Some "whirLbMiicVdio4qvUfM5KAg6Ct8VwpYzGff3uctyCc") None)) None.
Definition raydium_step : RouteStep :=
  mkRouteStep
    (Some (mkSwapInfo None (Some "675kPX9MHTjS2zt1qfr1NYHuzeLXfQM9H24wFSUt1Mp8") None)) None.

(** A placeholder opportunity, for reading a list by position. *)
Definition venue_opportunity : Opportunity :=
  mkOpportunity "" "" "" "" 0 0 0 0 0 0 0 0 [] "" 0 0.

(** ** Proofs *)

(** *** The monad *)

Lemma bind_ret {A B : Type} (c : M A) (k : A -> M B) (w w' : World) (a : A) :
  c w = (Ret a, w') -> bind c k w = k a w'.
Proof. intros H. unfold bind. rewrite H. reflexivity. Qed.

Lemma bind_raise {A B : Type} (c : M A) (k : A -> M B) (w w' : World) (e : exn) :
  c w = (Raise e, w') -> bind c k w = (Raise e, w').
Proof. intros H. unfold bind. rewrite H. reflexivity. Qed.

(** *** Lists *)

Lemma filter_full_length {A : Type} (P : A -> Prop) `{!forall x, Decision (P x)}
    (l : list A) :
  length (filter P l) = length l -> filter P l = l.
Proof.
  induction l as [|x l IH]; [reflexivity|].
  rewrite filter_cons. destruct (decide (P x)) as [Hx|Hx]; simpl; intros Hlen.
  - f_equal. apply IH. lia.
  - pose proof (length_filter P l). lia.
Qed.

Lemma filter_length_mono {A : Type} (P1 P2 : A -> Prop)
    `{!forall x, Decision (P1 x), !forall x, Decision (P2 x)} (l : list A) :
  (forall x, P1 x -> P2 x) ->
  (length (filter P1 l) <= length (filter P2 l))%nat.
Proof.
  intros Himp. rewrite <- (list_filter_filter_l P1 P2 l Himp).
  apply length_filter.
Qed.

(** *** The rate limiter *)

Section RateLimiter.

Variable clock : nat -> Q.
Hypothesis clock_monotone : forall i j, (i <= j)%nat -> clock i <= clock j.

(** What one call does, read off the code. *)
Lemma rate_limit_check_eq (api_name : string) (w : World) (calls : list Q) (limit : nat) :
  api_call_times w !! api_name = Some calls ->
  MAX_CALLS_PER_MINUTE !! api_name = Some limit ->
  let now := clock (clock_reads w) in
  let kept := filter (fun t => now - t < 60) calls in
  let w1 := set_clock_reads (S (clock_reads w)) w in
  rate_limit_check clock api_name w =
    if (limit <=? length kept)%nat
    then (Ret false, set_api_call_times (<[api_name := kept]> (api_call_times w)) w1)
    else (Ret true, set_api_call_times (<[api_name := kept ++ [now]]> (api_call_times w)) w1).
Proof.
  intros Hcalls Hlimit now kept w1.
  unfold rate_limit_check, bind, time_time, get, subscript, modify. simpl.
  rewrite Hcalls. unfold ret. simpl. rewrite Hlimit. simpl.
  fold now. fold kept.
  destruct (limit <=? length kept)%nat; simpl; [reflexivity|].
  unfold set_api_call_times; simpl. rewrite insert_insert_eq. reflexivity.
Qed.

Lemma rate_limit_check_step (api_name : string) (budget : nat) (seen : list Q) (w : World) :
  MAX_CALLS_PER_MINUTE !! api_name = Some budget ->
  window_inv clock api_name budget seen w ->
  exists ok w',
    rate_limit_check clock api_name w = (Ret ok, w') /\
    clock_reads w' = S (clock_reads w) /\
    window_inv clock api_name budget
               (seen ++ if ok then [clock (clock_reads w)] else []) w' /\
    (ok = false -> api_call_times w' = api_call_times w).
Proof.
  intros Hmax (T & l & Hl & Hfil & Hlen & Hpast & HT & Hwin).
  rewrite (rate_limit_check_eq api_name w l budget Hl Hmax).
  set (now := clock (clock_reads w)) in *.
  set (kept := filter (fun t => now - t < 60) l).
  assert (Hkept : kept = filter (fun t => now - t < 60) seen).
  { unfold kept. rewrite Hfil. apply list_filter_filter_l. intros x Hx. lra. }
  assert (Hnext : now <= clock (S (clock_reads w))).
  { apply clock_monotone. lia. }
  assert (Hpast' : Forall (fun t => t <= now) seen).
  { eapply Forall_impl; [exact Hpast|]. simpl. intros x Hx. lra. }
  destruct (Nat.leb_spec budget (length kept)) as [Hfull|Hroom].
  - (* denied *)
    exists false. eexists. split; [reflexivity|]. split; [reflexivity|].
    assert (Hsame : kept = l).
    { pose proof (length_filter (fun t => now - t < 60) l) as Hle.
      change (length kept <= length l)%nat in Hle.
      apply filter_full_length. change (length kept = length l). lia. }
    split.
    + rewrite app_nil_r. exists now, kept. simpl.
      rewrite lookup_insert_eq. repeat split; try assumption.
      rewrite Hsame. exact Hlen.
    + intros _. simpl. rewrite Hsame. apply insert_id. exact Hl.
  - (* granted *)
    exists true. eexists. split; [reflexivity|]. split; [reflexivity|].
    split; [|discriminate].
    assert (Hnow : filter (fun t => now - t < 60) (seen ++ [now]) = kept ++ [now]).
    { rewrite filter_app, <- Hkept. f_equal.
      rewrite filter_cons_True; [reflexivity | lra]. }
    exists now, (kept ++ [now]). simpl. rewrite lookup_insert_eq.
    split; [reflexivity|]. split; [symmetry; exact Hnow|].
    split; [rewrite length_app; simpl; lia|].
    split; [apply Forall_app; split; [exact Hpast' | constructor; [lra | constructor]]|].
    split; [exact Hnext|].
    intros t. destruct (Qlt_le_dec t now) as [Hbefore|Hafter].
    + rewrite filter_app, filter_cons_False, filter_nil, app_nil_r; [apply Hwin | lra].
    + etransitivity.
      * apply (filter_length_mono _ (fun s => now - s < 60)).
        intros x [Hx1 Hx2]. lra.
      * rewrite Hnow, length_app. simpl. lia.
Qed.

Lemma rate_limit_calls_inv (api_name : string) (budget : nat) (n : nat) :
  MAX_CALLS_PER_MINUTE !! api_name = Some budget ->
  forall (seen : list Q) (w : World),
    window_inv clock api_name budget seen w ->
    exists log w',
      rate_limit_calls clock api_name n w = (Ret log, w') /\
      length log = n /\
      window_inv clock api_name budget (seen ++ granted log) w'.
Proof.
  intros Hmax. induction n as [|n IH]; intros seen w Hinv.
  - exists [], w. split; [reflexivity|]. split; [reflexivity|].
    unfold granted. simpl. rewrite app_nil_r. exact Hinv.
  - destruct (rate_limit_check_step api_name budget seen w Hmax Hinv)
      as (ok & w1 & Hrun & _ & Hinv1 & _).
    destruct (IH _ _ Hinv1) as (log & w2 & Hrest & Hlen & Hinv2).
    exists ((clock (clock_reads w), ok) :: log), w2.
    split.
    + simpl. unfold bind at 1. unfold get at 1.
      rewrite (bind_ret _ _ _ _ _ Hrun). rewrite (bind_ret _ _ _ _ _ Hrest).
      reflexivity.
    + split; [simpl; congruence|].
      replace (seen ++ granted ((clock (clock_reads w), ok) :: log))
        with ((seen ++ (if ok then [clock (clock_reads w)] else [])) ++ granted log);
        [exact Hinv2|].
      rewrite <- app_assoc. f_equal. unfold granted.
      rewrite filter_cons. destruct ok; reflexivity.
Qed.

(** C1. Starting from an empty window for a source whose configured budget
    is [budget] (10 for "jupiter", 15 for "coingecko"), and with a clock
    that never runs backwards, any number of successive calls of
    [rate_limit_check] all return, no window of 60 time-units contains more
    than [budget] granted calls, and a call that is denied afterwards
    leaves the stored timestamp lists as they were. *)
Theorem rate_limit_budget_respected (api_name : string) (budget n : nat) (w : World) :
  MAX_CALLS_PER_MINUTE !! api_name = Some budget ->
  api_call_times w !! api_name = Some [] ->
  exists log w',
    rate_limit_calls clock api_name n w = (Ret log, w') /\
    length log = n /\
    (forall t : Q, (length (granted_in_window t log) <= budget)%nat) /\
    (forall w'', rate_limit_check clock api_name w' = (Ret false, w'') ->
                 api_call_times w'' = api_call_times w').
Proof.
  intros Hmax Hempty.
  assert (Hinv : window_inv clock api_name budget [] w).
  { exists (clock (clock_reads w)), []. repeat split; try assumption; try constructor.
    - simpl; lia.
    - apply Qle_refl.
    - intros t. simpl. lia. }
  destruct (rate_limit_calls_inv api_name budget n Hmax [] w Hinv)
    as (log & w' & Hrun & Hlen & Hinv').
  exists log, w'. split; [exact Hrun|]. split; [exact Hlen|]. simpl in Hinv'.
  split.
  - destruct Hinv' as (T & l & _ & _ & _ & _ & _ & Hwin). exact Hwin.
  - intros w'' Hdenied.
    destruct (rate_limit_check_step api_name budget _ w' Hmax Hinv')
      as (ok & w1 & Hrun1 & _ & _ & Hsame).
    rewrite Hrun1 in Hdenied. inversion Hdenied; subst. apply Hsame. reflexivity.
Qed.

End RateLimiter.

(** *** Fetching with retries *)

Lemma pow2_nonneg (i : nat) : 0 <= inject_Z (2 ^ Z.of_nat i).
Proof. change 0 with (inject_Z 0). rewrite <- Zle_Qle. apply Z.pow_nonneg. lia. Qed.

Lemma backoff_sum_nil (max_retries : nat) : backoff_sum max_retries [] = 0.
Proof. reflexivity. Qed.

Lemma backoff_sum_cons_lt (max_retries attempt : nat) (rest : list nat) :
  (attempt < max_retries)%nat ->
  backoff_sum max_retries (attempt :: rest) =
    inject_Z (2 ^ Z.of_nat attempt) + backoff_sum max_retries rest.
Proof. intros Hlt. unfold backoff_sum. rewrite filter_cons_True by exact Hlt. reflexivity. Qed.

Lemma backoff_sum_cons_ge (max_retries attempt : nat) (rest : list nat) :
  ~ (attempt < max_retries)%nat ->
  backoff_sum max_retries (attempt :: rest) = backoff_sum max_retries rest.
Proof. intros Hge. unfold backoff_sum. rewrite filter_cons_False by exact Hge. reflexivity. Qed.

Lemma backoff_sum_nonneg (max_retries : nat) (attempts : list nat) :
  0 <= backoff_sum max_retries attempts.
Proof.
  induction attempts as [|attempt rest IH].
  - rewrite backoff_sum_nil. apply Qle_refl.
  - destruct (decide (attempt < max_retries)%nat) as [Hlt|Hge].
    + rewrite backoff_sum_cons_lt by exact Hlt. pose proof (pow2_nonneg attempt). lra.
    + rewrite backoff_sum_cons_ge by exact Hge. exact IH.
Qed.

Section Fetch.

Variable clock : nat -> Q.
Variable uniform : nat -> Q.
Variable Json : Type.
Variable http : nat -> Reply Json.

(** A call of [rate_limit_check], whatever it answers, issues no request,
    draws no random number and does not sleep. *)
Lemma rate_limit_check_quiet (api_name : string) (w w' : World) (r : result bool) :
  rate_limit_check clock api_name w = (r, w') ->
  http_calls w' = http_calls w /\ uniform_draws w' = uniform_draws w /\
  slept w' = slept w.
Proof.
  unfold rate_limit_check, bind, time_time, get, subscript, modify, ret, raise.
  simpl. destruct (api_call_times w !! api_name) as [calls|]; simpl.
  - destruct (MAX_CALLS_PER_MINUTE !! api_name) as [limit|]; simpl.
    + destruct (limit <=? _)%nat; simpl; intros H; inversion H; subst; simpl; auto.
    + intros H; inversion H; subst; simpl; auto.
  - intros H; inversion H; subst; simpl; auto.
Qed.

Local Abbreviation attempt_body := (fetch_attempt clock uniform Json http).

(** One pass of the loop body: when the limiter denies, the pass decides
    [return None] in the world the limiter left. *)
Lemma fetch_attempt_denied (api_name url : string) (max_retries attempt : nat)
    (w w1 : World) :
  rate_limit_check clock api_name w = (Ret false, w1) ->
  attempt_body api_name url max_retries attempt w = (Ret (Return None), w1).
Proof.
  intros Hdenied. unfold fetch_attempt, try_except.
  rewrite (bind_ret _ _ _ _ _ Hdenied). reflexivity.
Qed.

Hypothesis uniform_range : forall k, 0 <= uniform k /\ uniform k <= 1.

(** One pass issues at most one request; it either does not sleep, or it
    sleeps once for [2 ^ attempt] plus a jitter within [0, 1], and that
    only at an attempt below [max_retries]. *)
Lemma fetch_attempt_cost (api_name url : string) (max_retries attempt : nat) (w : World) :
  exists ctl w',
    attempt_body api_name url max_retries attempt w = (Ret ctl, w') /\
    (http_calls w' <= S (http_calls w))%nat /\
    (slept w' = slept w \/
     (attempt < max_retries)%nat /\
     exists jitter, 0 <= jitter /\ jitter <= 1 /\
       slept w' = slept w ++ [inject_Z (2 ^ Z.of_nat attempt) + jitter]).
Proof.
  unfold fetch_attempt, try_except.
  destruct (rate_limit_check clock api_name w) as [[ok|e] w1] eqn:Hcheck;
    destruct (rate_limit_check_quiet _ _ _ _ Hcheck) as (Hh & Hu & Hs).
  - rewrite (bind_ret _ _ _ _ _ Hcheck). destruct ok; simpl.
    + unfold bind at 1. unfold requests_get at 1.
      destruct (http (http_calls w1)) as [|status_code body] eqn:Hreply.
      * (* the request raised *)
        destruct (attempt <? max_retries)%nat eqn:Hlt.
        -- apply Nat.ltb_lt in Hlt. eexists _, _. split; [reflexivity|].
           simpl. split; [lia|]. right. split; [exact Hlt|].
           exists (uniform (uniform_draws w1)).
           destruct (uniform_range (uniform_draws w1)). rewrite Hs. auto.
        -- eexists _, _. split; [reflexivity|]. simpl. split; [lia|]. left. exact Hs.
      * simpl. destruct (status_code =? 200)%Z.
        -- unfold bind, response_json. simpl. destruct body as [parsed|]; simpl.
           ++ eexists _, _. split; [reflexivity|]. simpl. split; [lia|]. left. exact Hs.
           ++ destruct (attempt <? max_retries)%nat eqn:Hlt.
              ** apply Nat.ltb_lt in Hlt. eexists _, _. split; [reflexivity|].
                 simpl. split; [lia|]. right. split; [exact Hlt|].
                 exists (uniform (uniform_draws w1)).
                 destruct (uniform_range (uniform_draws w1)). rewrite Hs. auto.
              ** eexists _, _. split; [reflexivity|]. simpl. split; [lia|].
                 left. exact Hs.
        -- destruct (status_code =? 429)%Z.
           ++ unfold bind, random_uniform_0_1. simpl.
              destruct (attempt <? max_retries)%nat eqn:Hlt; simpl.
              ** apply Nat.ltb_lt in Hlt. eexists _, _. split; [reflexivity|].
                 simpl. split; [lia|]. right. split; [exact Hlt|].
                 exists (uniform (uniform_draws w1)).
                 destruct (uniform_range (uniform_draws w1)). rewrite Hs. auto.
              ** eexists _, _. split; [reflexivity|]. simpl. split; [lia|].
                 left. exact Hs.
           ++ eexists _, _. split; [reflexivity|]. simpl. split; [lia|]. left. exact Hs.
    + eexists _, _. split; [reflexivity|]. split; [lia|]. left. exact Hs.
  - (* the limiter itself raised: the handler takes over *)
    rewrite (bind_raise _ _ _ _ _ Hcheck).
    destruct (attempt <? max_retries)%nat eqn:Hlt.
    + apply Nat.ltb_lt in Hlt. eexists _, _. split; [reflexivity|].
      simpl. split; [lia|]. right. split; [exact Hlt|].
      exists (uniform (uniform_draws w1)).
      destruct (uniform_range (uniform_draws w1)). rewrite Hs. auto.
    + eexists _, _. split; [reflexivity|]. simpl. split; [lia|]. left. exact Hs.
Qed.

Lemma for_attempts_cost (api_name url : string) (max_retries : nat)
    (attempts : list nat) :
  forall w : World,
  exists r w' waits,
    for_attempts attempts (attempt_body api_name url max_retries) w = (Ret r, w') /\
    (http_calls w' <= http_calls w + length attempts)%nat /\
    slept w' = slept w ++ waits /\
    (length waits <= length (filter (fun i => (i < max_retries)%nat) attempts))%nat /\
    foldr Qplus 0 waits <=
      backoff_sum max_retries attempts + inject_Z (Z.of_nat (length waits)).
Proof.
  induction attempts as [|attempt rest IH]; intros w.
  - exists None, w, []. rewrite app_nil_r.
    split; [reflexivity|]. split; [lia|]. split; [reflexivity|].
    split; [simpl; lia|]. rewrite backoff_sum_nil.
    change (0 <= 0 + 0). lra.
  - destruct (fetch_attempt_cost api_name url max_retries attempt w)
      as (ctl & w1 & Hrun & Hhttp & Hsleep).
    cbn [for_attempts]. rewrite (bind_ret _ _ _ _ _ Hrun).
    pose proof (backoff_sum_nonneg max_retries rest) as Hrest0.
    pose proof (pow2_nonneg attempt) as Hpow0.
    destruct ctl as [|r].
    + (* the loop goes on *)
      destruct (IH w1) as (r & w2 & waits & Hrest & Hhttp2 & Hslept2 & Hlen2 & Hsum2).
      destruct Hsleep as [Hnone | (Hlt & jitter & Hj0 & Hj1 & Hone)].
      * exists r, w2, waits. split; [exact Hrest|].
        split; [cbn [length]; lia|].
        split; [rewrite Hslept2, Hnone; reflexivity|].
        rewrite filter_cons.
        destruct (decide (attempt < max_retries)%nat) as [Hlt|Hge].
        -- split; [cbn [length]; lia|].
           rewrite backoff_sum_cons_lt by exact Hlt. lra.
        -- split; [exact Hlen2|].
           rewrite backoff_sum_cons_ge by exact Hge. exact Hsum2.
      * exists r, w2, ((inject_Z (2 ^ Z.of_nat attempt) + jitter) :: waits).
        split; [exact Hrest|].
        split; [cbn [length]; lia|].
        split; [rewrite Hslept2, Hone, <- app_assoc; reflexivity|].
        rewrite filter_cons_True by exact Hlt.
        split; [cbn [length]; lia|].
        rewrite backoff_sum_cons_lt by exact Hlt.
        cbn [length foldr]. rewrite Nat2Z.inj_succ, <- Z.add_1_r, inject_Z_plus.
        change (inject_Z 1) with 1. lra.
    + (* the loop returns *)
      destruct Hsleep as [Hnone | (Hlt & jitter & Hj0 & Hj1 & Hone)].
      * exists r, w1, []. rewrite app_nil_r. split; [reflexivity|].
        split; [cbn [length]; lia|]. split; [exact Hnone|].
        split; [cbn [length]; lia|].
        change (0 <= backoff_sum max_retries (attempt :: rest) + 0).
        pose proof (backoff_sum_nonneg max_retries (attempt :: rest)). lra.
      * exists r, w1, [inject_Z (2 ^ Z.of_nat attempt) + jitter].
        split; [reflexivity|]. split; [cbn [length]; lia|]. split; [exact Hone|].
        rewrite filter_cons_True by exact Hlt.
        split; [cbn [length]; lia|].
        rewrite backoff_sum_cons_lt by exact Hlt.
        change (inject_Z (2 ^ Z.of_nat attempt) + jitter + 0 <=
                inject_Z (2 ^ Z.of_nat attempt) + backoff_sum max_retries rest + 1).
        lra.
Qed.

Lemma filter_below_seq (m : nat) :
  filter (fun i => (i < m)%nat) (seq 0 (m + 1)) = seq 0 m.
Proof.
  rewrite seq_app, filter_app. cbn [seq].
  rewrite filter_cons_False, filter_nil, app_nil_r by lia.
  assert (Hall : Forall (fun i => (i < m)%nat) (seq 0 m)).
  { apply Forall_forall. intros i Hi. apply elem_of_seq in Hi. lia. }
  induction Hall as [|i l Hi _ IH]; [reflexivity|].
  rewrite filter_cons_True by exact Hi. f_equal. exact IH.
Qed.

Lemma for_attempts_bounded (api_name url : string) (max_retries : nat) :
  fetch_bounded (for_attempts (seq 0 (max_retries + 1))
                              (attempt_body api_name url max_retries))
                max_retries.
Proof.
  intros w.
  destruct (for_attempts_cost api_name url max_retries (seq 0 (max_retries + 1)) w)
    as (r & w' & waits & Hrun & Hhttp & Hslept & Hlen & Hsum).
  unfold backoff_sum in Hsum. rewrite filter_below_seq in Hlen, Hsum.
  rewrite length_seq in Hhttp, Hlen.
  exists r, w', waits. auto.
Qed.

(** C7. With jitter drawn from [0, 1], [get_jupiter_quote_with_retry] and
    [get_coingecko_prices_with_retry] always return, after at most
    [max_retries + 1] requests and a total sleep of at most
    [2^0 + ... + 2^(max_retries-1)] plus one time-unit per sleep; with
    the default [max_retries = 2] that is at most 3 requests. *)
Theorem fetch_attempts_and_backoff_bounded
    (input_mint output_mint : string) (amount : Z) (token_ids : list string)
    (max_retries : nat) :
  fetch_bounded (get_jupiter_quote_with_retry clock uniform Json http
                   input_mint output_mint amount max_retries) max_retries /\
  fetch_bounded (get_coingecko_prices_with_retry clock uniform Json http
                   token_ids max_retries) max_retries /\
  fetch_bounded (get_jupiter_quote clock uniform Json http
                   input_mint output_mint amount) 2 /\
  fetch_bounded (get_coingecko_prices clock uniform Json http token_ids) 2.
Proof.
  repeat split; apply for_attempts_bounded.
Qed.

(** C8. When [rate_limit_check] denies at some attempt, the loop returns
    [None] at once, in the world the limiter left: no request is issued,
    nothing is slept, no jitter is drawn and the remaining attempts are
    not run.  In particular a fetch denied at its first attempt does
    nothing else. *)
Theorem rate_limited_fetch_stops
    (api_name url : string) (max_retries attempt : nat) (rest : list nat)
    (input_mint output_mint : string) (amount : Z) (token_ids : list string)
    (w w1 : World) :
  rate_limit_check clock api_name w = (Ret false, w1) ->
  for_attempts (attempt :: rest) (attempt_body api_name url max_retries) w
    = (Ret None, w1) /\
  http_calls w1 = http_calls w /\ slept w1 = slept w /\
  uniform_draws w1 = uniform_draws w /\
  (api_name = "jupiter" ->
   get_jupiter_quote_with_retry clock uniform Json http
     input_mint output_mint amount max_retries w = (Ret None, w1)) /\
  (api_name = "coingecko" ->
   get_coingecko_prices_with_retry clock uniform Json http
     token_ids max_retries w = (Ret None, w1)).
Proof.
  intros Hdenied.
  assert (Hloop : forall url' a l,
             for_attempts (a :: l) (attempt_body api_name url' max_retries) w
             = (Ret None, w1)).
  { intros url' a l. cbn [for_attempts].
    rewrite (bind_ret _ _ _ _ _ (fetch_attempt_denied api_name url' max_retries a w w1 Hdenied)).
    reflexivity. }
  destruct (rate_limit_check_quiet _ _ _ _ Hdenied) as (Hh & Hu & Hs).
  split; [apply Hloop|]. split; [exact Hh|]. split; [exact Hs|]. split; [exact Hu|].
  split; intros ->.
  - unfold get_jupiter_quote_with_retry. rewrite Nat.add_1_r. apply Hloop.
  - unfold get_coingecko_prices_with_retry. rewrite Nat.add_1_r. apply Hloop.
Qed.

End Fetch.

(** *** The venue classifier *)

Lemma dex_of_program_id_none (program_id : string) :
  (forall dex_name program_ids pid,
      (dex_name, program_ids) ∈ DEX_PROGRAM_IDS -> pid ∈ program_ids ->
      py_str_in pid program_id = false) ->
  dex_of_program_id program_id = None.
Proof.
  intros Hno. unfold dex_of_program_id, DEX_PROGRAM_IDS. cbn [List.find snd existsb].
  rewrite (Hno "Raydium" ["675kPX9MHTjS2zt1qfr1NYHuzeLXfQM9H24wFSUt1Mp8"]);
    [| unfold DEX_PROGRAM_IDS; set_solver | set_solver].
  rewrite (Hno "Orca" ["whirLbMiicVdio4qvUfM5KAg6Ct8VwpYzGff3uctyCc"]);
    [| unfold DEX_PROGRAM_IDS; set_solver | set_solver].
  rewrite (Hno "Lifinity" ["EewxydAPCCVuNEyrVN68PuSYdQ7wKn27V9Gjeoi8dy3S"]);
    [| unfold DEX_PROGRAM_IDS; set_solver | set_solver].
  reflexivity.
Qed.

Lemma scan_route_unmatched (route_plan : list RouteStep) :
  unmatched route_plan -> scan_route route_plan = None.
Proof.
  induction route_plan as [|step rest IH]; intros Hno; [reflexivity|].
  assert (Hrest : scan_route rest = None).
  { apply IH. intros s info Hs. apply Hno. set_solver. }
  cbn [scan_route]. destruct (r_swapInfo step) as [info|] eqn:Hinfo; [|exact Hrest].
  cbv zeta. rewrite dex_of_program_id_none; [exact Hrest|].
  intros dex_name program_ids pid. apply (Hno step info); [set_solver | exact Hinfo].
Qed.

(** C4 (amended). When no step matches a known program identifier, a
    route of one step is classified "Raydium" and a route of several steps
    "Orca"; the empty route is classified "Unknown". *)
Theorem identify_dex_fallback (route_plan : list RouteStep) :
  unmatched route_plan ->
  (length route_plan = 1%nat -> identify_dex_from_route route_plan = "Raydium") /\
  ((1 < length route_plan)%nat -> identify_dex_from_route route_plan = "Orca") /\
  (route_plan = [] -> identify_dex_from_route route_plan = "Unknown").
Proof.
  intros Hno. pose proof (scan_route_unmatched route_plan Hno) as Hscan.
  unfold identify_dex_from_route.
  destruct route_plan as [|step rest]; [repeat split; simpl; intros; (lia || reflexivity || discriminate)|].
  rewrite Hscan. repeat split.
  - intros ->. reflexivity.
  - intros Hlen.
    destruct (Nat.eqb_spec (length (step :: rest)) 1) as [Heq|_]; [lia|].
    destruct (Nat.ltb_spec 1 (length (step :: rest))) as [_|Hge]; [reflexivity | lia].
  - discriminate.
Qed.

(** *** Loops *)

Lemma same_globals_refl (w : World) : same_globals w w.
Proof. repeat split. Qed.

Lemma same_globals_trans (w1 w2 w3 : World) :
  same_globals w1 w2 -> same_globals w2 w3 -> same_globals w1 w3.
Proof.
  intros (A1 & B1 & C1 & D1) (A2 & B2 & C2 & D2).
  repeat split; congruence.
Qed.

(** A loop keeps what each pass keeps: a property [I] of the accumulator
    (when the pass returns) and the published state. *)
Lemma for_each_keeps {A S : Type} (Inv : S -> Prop) (xs : list A) (body : A -> S -> M S) :
  (forall x acc w r w', Inv acc -> body x acc w = (r, w') ->
     same_globals w w' /\ match r with Ret acc' => Inv acc' | Raise _ => True end) ->
  forall acc w r w', Inv acc -> for_each xs body acc w = (r, w') ->
     same_globals w w' /\ match r with Ret acc' => Inv acc' | Raise _ => True end.
Proof.
  intros Hbody. induction xs as [|x rest IH]; intros acc w r w' Hacc Hrun.
  - cbn in Hrun. inversion Hrun; subst. split; [apply same_globals_refl | exact Hacc].
  - cbn [for_each] in Hrun. unfold bind in Hrun.
    destruct (body x acc w) as [[acc1|e] w1] eqn:Hx;
      destruct (Hbody x acc w _ w1 Hacc Hx) as [Hsame Hnext].
    + destruct (IH acc1 w1 r w' Hnext Hrun) as [Hsame' Hfinal].
      split; [eapply same_globals_trans; eassumption | exact Hfinal].
    + inversion Hrun; subst. split; [exact Hsame | exact I].
Qed.

(** *** Detection *)

Section Detection.

Variable hash : string -> Z.
Variable clock : nat -> Q.

(** One couple of quotes adds at most one opportunity, and only one with a
    positive [netProfit]. *)
Lemma consider_keeps (pair : string) (buy sell : nat * Quote)
    (found : list Opportunity) (w : World) (r : result (list Opportunity)) (w' : World) :
  Forall profitable found ->
  consider hash clock pair buy sell found w = (r, w') ->
  same_globals w w' /\
  match r with Ret found' => Forall profitable found' | Raise _ => True end.
Proof.
  intros Hfound. unfold consider. destruct buy as [i buy_quote], sell as [j sell_quote].
  destruct (i =? j)%nat.
  { intros H; inversion H; subst. split; [apply same_globals_refl | exact Hfound]. }
  unfold bind, py_div.
  destruct (Qeq_bool (q_price buy_quote) 0).
  { intros H; inversion H; subst. split; [apply same_globals_refl | exact I]. }
  cbn [ret]. unfold ret at 1.
  destruct (decide (0.1 < _)) as [_|_];
    [|intros H; inversion H; subst; split; [apply same_globals_refl | exact Hfound]].
  destruct (decide (0 < _)) as [Hpos|_];
    [|intros H; inversion H; subst; split; [apply same_globals_refl | exact Hfound]].
  unfold time_time, ret. cbn. intros H; inversion H; subst.
  split; [repeat split|].
  apply Forall_app. split; [exact Hfound|]. constructor; [exact Hpos | constructor].
Qed.

Lemma detect_keeps (pair : string) (quotes : list Quote)
    (found : list Opportunity) (w : World) (r : result (list Opportunity)) (w' : World) :
  Forall profitable found ->
  detect hash clock pair quotes found w = (r, w') ->
  same_globals w w' /\
  match r with Ret found' => Forall profitable found' | Raise _ => True end.
Proof.
  unfold detect. apply (for_each_keeps (Forall profitable)).
  intros buy acc w0 r0 w0'. apply (for_each_keeps (Forall profitable)).
  intros sell acc1 w1 r1 w1'. apply consider_keeps.
Qed.

(** *** Sorting *)

Lemma insert_desc_perm (x : Opportunity) (l : list Opportunity) :
  insert_desc x l ≡ₚ x :: l.
Proof.
  induction l as [|y rest IH]; [reflexivity|].
  cbn [insert_desc]. destruct (decide (o_netProfit x < o_netProfit y)); [|reflexivity].
  rewrite IH. apply Permutation_swap.
Qed.

Lemma sort_perm (l : list Opportunity) : sort_by_netProfit_desc l ≡ₚ l.
Proof.
  induction l as [|x rest IH]; [reflexivity|].
  cbn [sort_by_netProfit_desc foldr]. rewrite insert_desc_perm.
  apply Permutation_skip. exact IH.
Qed.

Lemma insert_desc_sorted (x : Opportunity) (l : list Opportunity) :
  StronglySorted by_netProfit_desc l ->
  StronglySorted by_netProfit_desc (insert_desc x l).
Proof.
  induction l as [|y rest IH]; intros Hsorted.
  - repeat constructor.
  - apply StronglySorted_cons in Hsorted as [Hy Hrest].
    cbn [insert_desc]. destruct (decide (o_netProfit x < o_netProfit y)) as [Hlt|Hge].
    + apply StronglySorted_cons. split; [|apply IH; exact Hrest].
      rewrite insert_desc_perm. constructor; [|exact Hy].
      unfold by_netProfit_desc. lra.
    + assert (Hxy : by_netProfit_desc x y) by (unfold by_netProfit_desc; lra).
      apply StronglySorted_cons. split.
      * constructor; [exact Hxy|]. eapply Forall_impl; [exact Hy|].
        intros z Hz. unfold by_netProfit_desc in *. lra.
      * apply StronglySorted_cons. split; assumption.
Qed.

Lemma sort_sorted (l : list Opportunity) :
  StronglySorted by_netProfit_desc (sort_by_netProfit_desc l).
Proof.
  induction l as [|x rest IH]; [constructor|].
  cbn [sort_by_netProfit_desc foldr]. apply insert_desc_sorted. exact IH.
Qed.

Lemma take_sorted (n : nat) (l : list Opportunity) :
  StronglySorted by_netProfit_desc l -> StronglySorted by_netProfit_desc (take n l).
Proof.
  intros Hsorted. rewrite <- (take_drop n l) in Hsorted.
  apply StronglySorted_app in Hsorted. tauto.
Qed.

(** *** The history update *)

Lemma py_last_absorb {A : Type} (n : nat) (old new : list A) :
  py_last n (py_last n old ++ new) = py_last n (old ++ new).
Proof.
  unfold py_last. rewrite !length_app, length_drop.
  rewrite drop_app, length_drop, drop_drop.
  destruct (Nat.le_gt_cases (length old) n) as [Hle|Hgt].
  - replace (length old - n)%nat with 0%nat by lia. cbn [drop].
    rewrite Nat.sub_0_r, Nat.add_0_l. rewrite drop_app. reflexivity.
  - replace (length old - (length old - n))%nat with n by lia.
    rewrite drop_app. f_equal.
    + f_equal. lia.
    + f_equal. lia.
Qed.

Lemma py_last_short {A : Type} (n : nat) (l : list A) :
  (length l <= n)%nat -> py_last n l = l.
Proof. intros Hle. unfold py_last. replace (length l - n)%nat with 0%nat by lia. reflexivity. Qed.

Lemma py_last_length {A : Type} (n : nat) (l : list A) :
  (length (py_last n l) <= n)%nat.
Proof. unfold py_last. rewrite length_drop. lia. Qed.

(** One pass of the update loop: the opportunity's pair gets its spread
    appended and is cut to the last 50; other pairs are untouched. *)
Lemma record_spread_lookup (opp : Opportunity) (history : gmap string (list Q)) (p : string) :
  record_spread opp history !! p =
    if decide (o_pair opp = p)
    then Some (py_last 50 (default [] (history !! p) ++ [o_spread opp]))
    else history !! p.
Proof.
  unfold record_spread.
  set (history1 := match history !! o_pair opp with
                   | None => <[o_pair opp := []]> history
                   | Some _ => history
                   end).
  assert (H1 : default [] (history1 !! o_pair opp) = default [] (history !! o_pair opp)).
  { unfold history1. destruct (history !! o_pair opp) eqn:E.
    - rewrite E. reflexivity.
    - rewrite lookup_insert_eq. reflexivity. }
  assert (H2 : forall q, q <> o_pair opp -> history1 !! q = history !! q).
  { intros q Hq. unfold history1. destruct (history !! o_pair opp); [reflexivity|].
    apply lookup_insert_ne. congruence. }
  rewrite H1. set (series := default [] (history !! o_pair opp) ++ [o_spread opp]).
  destruct (decide (o_pair opp = p)) as [<-|Hne].
  - destruct (Nat.ltb_spec 50 (length series)) as [Hlong|Hshort].
    + rewrite lookup_insert_eq. reflexivity.
    + rewrite lookup_insert_eq, py_last_short by exact Hshort. reflexivity.
  - destruct (50 <? length series)%nat;
      rewrite ?lookup_insert_ne by exact Hne; apply H2; congruence.
Qed.

(** The whole update loop, seen from one pair [p]. *)
Lemma record_spreads_lookup (published : list Opportunity) (p : string) :
  forall history : gmap string (list Q),
  let appended := o_spread <$> filter (fun opp => o_pair opp = p) published in
  foldl (fun h opp => record_spread opp h) history published !! p =
    match appended with
    | [] => history !! p
    | _ :: _ => Some (py_last 50 (default [] (history !! p) ++ appended))
    end.
Proof.
  induction published as [|opp rest IH]; intros history; [reflexivity|].
  cbn [foldl]. cbv zeta. rewrite IH. rewrite filter_cons.
  rewrite record_spread_lookup.
  destruct (decide (o_pair opp = p)) as [Heq|Hne].
  - cbn [fmap list_fmap]. cbn [default].
    destruct (o_spread <$> filter (fun o => o_pair o = p) rest) as [|x xs] eqn:Hrest.
    + reflexivity.
    + f_equal. unfold id. rewrite py_last_absorb. rewrite <- app_assoc. reflexivity.
  - reflexivity.
Qed.

(** *** [generate_arbitrage_opportunities] *)

Local Abbreviation generate := (generate_arbitrage_opportunities hash clock).

Local Abbreviation scan := (scan_pair hash clock).

Lemma scan_pair_keeps (pair : string) (found : list Opportunity)
    (w : World) (r : result (list Opportunity)) (w' : World) :
  Forall profitable found ->
  scan pair found w = (r, w') ->
  same_globals w w' /\
  match r with Ret found' => Forall profitable found' | Raise _ => True end.
Proof.
  intros Hfound. unfold scan_pair, bind, get.
  destruct (jupiter_quotes w !! ("quotes_" +:+ pair)) as [entry|].
  - unfold time_time at 1.
    destruct (decide (5 < _)).
    + intros H; inversion H; subst. split; [repeat split | exact Hfound].
    + intros Hrun. destruct (detect_keeps _ _ _ _ _ _ Hfound Hrun) as [Hsame Hr].
      split; [|exact Hr]. destruct Hsame as (A & B & C & D). repeat split; assumption.
  - intros H; inversion H; subst. split; [apply same_globals_refl | exact Hfound].
Qed.

(** The run, split at the end of the detection loops. *)
Lemma generate_outcome (w : World) :
  exists r1 w1,
    for_each (fst <$> TRADING_PAIRS) scan [] w = (r1, w1) /\
    same_globals w w1 /\
    match r1 with
    | Ret found =>
        Forall profitable found /\
        let published := take 10 (sort_by_netProfit_desc found) in
        generate w =
          (Ret tt,
           set_price_history
             (foldl (fun h opp => record_spread opp h) (price_history w1) published)
             (set_current_opportunities published w1))
    | Raise e => generate w = (Raise e, w1)
    end.
Proof.
  destruct (for_each (fst <$> TRADING_PAIRS) scan [] w) as [r1 w1] eqn:Hloop.
  exists r1, w1. split; [reflexivity|].
  destruct (for_each_keeps (Forall profitable) _ _ scan_pair_keeps [] w r1 w1
              (Forall_nil_2 _) Hloop) as [Hsame Hr].
  split; [exact Hsame|].
  unfold generate_arbitrage_opportunities.
  destruct r1 as [found|e].
  - split; [exact Hr|]. rewrite (bind_ret _ _ _ _ _ Hloop). reflexivity.
  - rewrite (bind_raise _ _ _ _ _ Hloop). reflexivity.
Qed.

(** C2. A run that completes publishes at most 10 opportunities, in
    decreasing order of [netProfit], each with a positive [netProfit],
    whatever the cached quotes are; a run that is cut short by an
    exception publishes nothing, so the list of the previous run stays. *)
Theorem published_list_bounded_sorted_profitable (w : World) :
  (forall w', generate w = (Ret tt, w') ->
     (length (current_opportunities w') <= 10)%nat /\
     StronglySorted by_netProfit_desc (current_opportunities w') /\
     Forall profitable (current_opportunities w')) /\
  (forall e w', generate w = (Raise e, w') ->
     current_opportunities w' = current_opportunities w).
Proof.
  destruct (generate_outcome w) as (r1 & w1 & _ & Hsame & Hr).
  destruct r1 as [found|e1].
  - destruct Hr as [Hprof Hrun]. cbv zeta in Hrun. split.
    + intros w' Hw'. rewrite Hrun in Hw'. inversion Hw'; subst w'. cbn.
      split; [rewrite length_take; lia|].
      split; [apply take_sorted, sort_sorted|].
      apply Forall_take. rewrite sort_perm. exact Hprof.
    + intros e w' Hw'. rewrite Hrun in Hw'. discriminate Hw'.
  - split.
    + intros w' Hw'. rewrite Hr in Hw'. discriminate Hw'.
    + intros e w' Hw'. rewrite Hr in Hw'. inversion Hw'; subst. apply Hsame.
Qed.

(** C6 (amended). In a run that completes, the series of a pair receives
    one spread for every opportunity of that pair in the published list,
    in published order (so several when several of them are published),
    and none when no opportunity of the pair is published; a series that
    received a spread is cut to its most recent 50 entries, the oldest
    dropped first, and no series within 50 entries grows beyond 50.  A run
    cut short by an exception leaves every series as it was. *)
Theorem history_gets_one_spread_per_published_opportunity (w : World) (p : string) :
  (forall w', generate w = (Ret tt, w') ->
     let appended :=
       o_spread <$> filter (fun o => o_pair o = p) (current_opportunities w') in
     let before := default [] (price_history w !! p) in
     (appended = [] -> price_history w' !! p = price_history w !! p) /\
     (appended <> [] ->
        price_history w' !! p = Some (py_last 50 (before ++ appended))) /\
     ((length before <= 50)%nat ->
        (length (default [] (price_history w' !! p)) <= 50)%nat)) /\
  (forall e w', generate w = (Raise e, w') -> price_history w' = price_history w).
Proof.
  destruct (generate_outcome w) as (r1 & w1 & _ & Hsame & Hr).
  destruct Hsame as (_ & Hhist & _ & _).
  destruct r1 as [found|e1].
  - destruct Hr as [_ Hrun]. cbv zeta in Hrun. split.
    + intros w' Hw'. rewrite Hrun in Hw'. inversion Hw'; subst w'. cbn.
      rewrite record_spreads_lookup, Hhist. cbv zeta.
      destruct (o_spread <$> filter (fun o => o_pair o = p)
                  (take 10 (sort_by_netProfit_desc found))) as [|x xs].
      * split; [reflexivity|]. split; [congruence|]. intros Hle. exact Hle.
      * split; [discriminate|]. split; [reflexivity|].
        intros _. apply py_last_length.
    + intros e w' Hw'. rewrite Hrun in Hw'. discriminate Hw'.
  - split.
    + intros w' Hw'. rewrite Hr in Hw'. discriminate Hw'.
    + intros e w' Hw'. rewrite Hr in Hw'. inversion Hw'; subst. exact Hhist.
Qed.

(** *** Detection on given quotes *)

Lemma gas_range (key : string) :
  let gas := 0.01 + inject_Z (hash key mod 20) / 1000 in
  0.01 <= gas /\ gas <= 0.03.
Proof.
  cbv zeta. set (h := (hash key mod 20)%Z).
  assert (Hh : (0 <= h < 20)%Z) by (apply Z.mod_pos_bound; lia).
  assert (H1 : inject_Z 0 <= inject_Z h) by (rewrite <- Zle_Qle; lia).
  assert (H2 : inject_Z h <= inject_Z 20) by (rewrite <- Zle_Qle; lia).
  change (inject_Z 0) with 0 in H1. change (inject_Z 20) with 20 in H2.
  assert (H3 : 0 <= inject_Z h / 1000) by (apply Qle_shift_div_l; [reflexivity | lra]).
  assert (H4 : inject_Z h / 1000 <= 0.02) by (apply Qle_shift_div_r; [reflexivity | lra]).
  lra.
Qed.

(** What [consider] does in each of its cases. *)
Lemma consider_same_position (pair : string) (i : nat) (buy_quote sell_quote : Quote)
    (found : list Opportunity) (w : World) :
  consider hash clock pair (i, buy_quote) (i, sell_quote) found w = (Ret found, w).
Proof. unfold consider. rewrite Nat.eqb_refl. reflexivity. Qed.

Lemma consider_small_spread (pair : string) (i j : nat) (buy_quote sell_quote : Quote)
    (found : list Opportunity) (w : World) :
  i <> j -> ~ q_price buy_quote == 0 ->
  ~ 0.1 < (q_price sell_quote - q_price buy_quote) / q_price buy_quote * 100 ->
  consider hash clock pair (i, buy_quote) (j, sell_quote) found w = (Ret found, w).
Proof.
  intros Hij Hprice Hspread. unfold consider, bind, py_div.
  destruct (Nat.eqb_spec i j) as [|_]; [contradiction|].
  destruct (Qeq_bool (q_price buy_quote) 0) eqn:Hzero;
    [apply Qeq_bool_iff in Hzero; contradiction|].
  cbn [ret]. unfold ret at 1.
  destruct (decide (0.1 < _)) as [|_]; [contradiction|]. reflexivity.
Qed.

Lemma consider_emits (pair : string) (i j : nat) (buy_quote sell_quote : Quote)
    (found : list Opportunity) (w : World) :
  let spread := (q_price sell_quote - q_price buy_quote) / q_price buy_quote * 100 in
  let estimated_profit :=
    spread - q_slippage buy_quote * 100 - q_slippage sell_quote * 100 in
  let estimated_gas :=
    0.01 + inject_Z (hash (q_dex buy_quote +:+ q_dex sell_quote) mod 20) / 1000 in
  i <> j -> ~ q_price buy_quote == 0 ->
  0.1 < spread -> 0 < estimated_profit - estimated_gas ->
  exists o,
    consider hash clock pair (i, buy_quote) (j, sell_quote) found w =
      (Ret (found ++ [o]), set_clock_reads (S (S (clock_reads w))) w) /\
    o_pair o = pair /\
    o_buyDex o = q_dex buy_quote /\ o_sellDex o = q_dex sell_quote /\
    o_spread o = spread /\ o_estimatedProfit o = estimated_profit /\
    o_estimatedGas o = estimated_gas /\
    o_netProfit o = estimated_profit - estimated_gas.
Proof.
  intros spread estimated_profit estimated_gas Hij Hprice Hspread Hnet.
  unfold consider, bind, py_div.
  destruct (Nat.eqb_spec i j) as [|_]; [contradiction|].
  destruct (Qeq_bool (q_price buy_quote) 0) eqn:Hzero;
    [apply Qeq_bool_iff in Hzero; contradiction|].
  cbn [ret]. unfold ret at 1.
  fold spread. destruct (decide (0.1 < spread)) as [_|]; [|contradiction].
  fold estimated_profit. fold estimated_gas.
  destruct (decide (0 < estimated_profit - estimated_gas)) as [_|]; [|contradiction].
  unfold time_time, ret. cbn [clock_reads set_clock_reads].
  eexists. split; [reflexivity|]. cbn. repeat split; reflexivity.
Qed.

(** C3. On the two quotes A at 100 with slippage 0.001 and B at 101 with
    slippage 0.002, whatever their other fields, detection emits exactly
    one opportunity: buy on A, sell on B, spread 1, estimated profit
    1 - 0.1 - 0.2 = 0.7, and net profit 0.7 minus the gas estimate of the
    couple (A, B), which lies between 0.01 and 0.03.  Nothing is emitted
    for buying on B and selling on A. *)
Theorem detect_two_venue_example (pair : string) (liqA liqB feesA feesB : Q)
    (drA mhA drB mhB : list string) (srcA srcB : option string) (w : World) :
  let quoteA := mkQuote "A" 100 liqA 0.001 drA mhA feesA srcA in
  let quoteB := mkQuote "B" 101 liqB 0.002 drB mhB feesB srcB in
  let gas := 0.01 + inject_Z (hash "AB" mod 20) / 1000 in
  exists o w',
    detect hash clock pair [quoteA; quoteB] [] w = (Ret [o], w') /\
    o_buyDex o = "A" /\ o_sellDex o = "B" /\
    o_spread o == 1 /\ o_estimatedProfit o == 0.7 /\
    o_estimatedGas o = gas /\ o_netProfit o == 0.7 - gas /\
    0.01 <= gas /\ gas <= 0.03.
Proof.
  intros quoteA quoteB gas.
  destruct (gas_range "AB") as [Hgas1 Hgas2]. fold gas in Hgas1, Hgas2.
  destruct (consider_emits pair 0 1 quoteA quoteB [] w) as (o & Hrun & _ & Hbuy & Hsell & Hsp & Hep & Heg & Hnp).
  { lia. }
  { cbn. intros H. discriminate H. }
  { cbn. reflexivity. }
  { cbn [q_price q_slippage q_dex quoteA quoteB]. change ("A" +:+ "B") with "AB".
    fold gas. assert ((101 - 100) / 100 * 100 == 1) as -> by reflexivity. lra. }
  cbn [q_price q_slippage q_dex quoteA quoteB] in Hsp, Hep, Heg, Hnp, Hbuy, Hsell.
  change ("A" +:+ "B") with "AB" in Heg, Hnp. fold gas in Heg, Hnp.
  exists o. eexists. split.
  { unfold detect, enumerate. cbn [length seq zip zip_with for_each]. unfold bind.
    rewrite consider_same_position. cbv beta iota. rewrite Hrun. cbv beta iota.
    unfold ret at 1 2. cbv beta iota.
    rewrite consider_small_spread; [| lia | cbn; intros H; discriminate H | cbn; intros H; discriminate H].
    cbv beta iota. rewrite consider_same_position. reflexivity. }
  split; [exact Hbuy|]. split; [exact Hsell|].
  split; [rewrite Hsp; reflexivity|].
  split; [rewrite Hep; reflexivity|].
  split; [exact Heg|].
  split; [rewrite Hnp; assert ((101 - 100) / 100 * 100 - 0.001 * 100 - 0.002 * 100 == 0.7) as -> by reflexivity; reflexivity|].
  split; assumption.
Qed.

End Detection.

(** *** [simulate_trade] *)

Section Simulate.

Variable hash : string -> Z.
Variable clock : nat -> Q.

Lemma find_id_none (wanted : string) (published : list Opportunity) :
  (forall opp, opp ∈ published -> o_id opp <> wanted) ->
  List.find (fun opp => String.eqb (o_id opp) wanted) published = None.
Proof.
  induction published as [|opp rest IH]; intros Hno; [reflexivity|].
  cbn [List.find]. destruct (String.eqb_spec (o_id opp) wanted) as [Heq|_].
  - exfalso. apply (Hno opp); [set_solver | exact Heq].
  - apply IH. intros o Ho. apply Hno. set_solver.
Qed.

(** C9. For an [opportunityId] that no published opportunity carries (or
    that is missing from the request), [simulate_trade] answers 404 "not
    found" and leaves the world exactly as it was: nothing is slept, the
    clock is not read, the published state is unchanged. *)
Theorem simulate_trade_unknown_id (opportunityId : option string) (amount : option Z)
    (w : World) :
  (forall opp, opp ∈ current_opportunities w -> Some (o_id opp) <> opportunityId) ->
  simulate_trade hash clock opportunityId amount w = (Ret TradeNotFound, w) /\
  status_of TradeNotFound = 404%Z.
Proof.
  intros Hunknown. split; [|reflexivity].
  unfold simulate_trade, bind, get. cbv zeta.
  destruct opportunityId as [wanted|]; [|reflexivity].
  rewrite find_id_none; [reflexivity|].
  intros opp Hopp Heq. apply (Hunknown opp Hopp). congruence.
Qed.

End Simulate.

(** *** [get_arbitrage_opportunities] *)

Section Listing.

Variable clock : nat -> Q.
Variable float_of_str : string -> option Q.
Variable int_of_str : string -> option Z.

Local Abbreviation handler := (get_arbitrage_opportunities clock float_of_str int_of_str).

(** The handler, with the parsing of [maxLatency] singled out. *)
Lemma get_arbitrage_opportunities_eq (args : gmap string string) (w : World) :
  listing (fst (handler args w)) =
    match (match args !! "minPnl" with
           | Some text => float_of_str text
           | None => Some 0
           end) with
    | None => Raise ValueError
    | Some min_pnl =>
        match (match args !! "maxLatency" with
               | Some text => int_of_str text
               | None => Some 1000%Z
               end) with
        | None => Raise ValueError
        | Some _ =>
            let filtered :=
              List.filter (fun opp => bool_decide (min_pnl <= o_netProfit opp) &&
                                      pair_selected (args !! "pair") opp)
                          (current_opportunities w) in
            Ret (filtered, length filtered)
        end
    end.
Proof.
  unfold get_arbitrage_opportunities, bind, py_float, py_int, get, time_time, ret, raise.
  destruct (args !! "minPnl") as [ptext|]; [destruct (float_of_str ptext)|];
    destruct (args !! "maxLatency") as [ltext|]; try destruct (int_of_str ltext);
    reflexivity.
Qed.

(** C10 (amended). Two requests that agree on [minPnl] and on the pair
    filter, and whose [maxLatency] is absent or a text that [int()]
    accepts, get the same list and the same count from the same published
    snapshot, whatever the two [maxLatency] values are; a [maxLatency]
    that [int()] rejects makes the request fail with [ValueError]. *)
Theorem max_latency_is_ignored (args1 args2 : gmap string string) (w1 w2 : World) :
  (current_opportunities w1 = current_opportunities w2 ->
   args1 !! "minPnl" = args2 !! "minPnl" ->
   args1 !! "pair" = args2 !! "pair" ->
   (forall text, args1 !! "maxLatency" = Some text -> is_Some (int_of_str text)) ->
   (forall text, args2 !! "maxLatency" = Some text -> is_Some (int_of_str text)) ->
   listing (fst (handler args1 w1)) = listing (fst (handler args2 w2))) /\
  (forall text, args1 !! "maxLatency" = Some text -> int_of_str text = None ->
     listing (fst (handler args1 w1)) = Raise ValueError).
Proof.
  split.
  - intros Hpub Hpnl Hpair Hok1 Hok2.
    rewrite !get_arbitrage_opportunities_eq, Hpub, Hpnl, Hpair.
    destruct (match args2 !! "minPnl" with Some text => float_of_str text | None => Some 0 end)
      as [min_pnl|]; [|reflexivity].
    destruct (args1 !! "maxLatency") as [t1|] eqn:H1;
      [destruct (Hok1 t1 eq_refl) as [n1 ->]|];
      (destruct (args2 !! "maxLatency") as [t2|] eqn:H2;
       [destruct (Hok2 t2 eq_refl) as [n2 ->]|]); reflexivity.
  - intros text Htext Hbad.
    rewrite get_arbitrage_opportunities_eq, Htext, Hbad.
    destruct (match args1 !! "minPnl" with Some t => float_of_str t | None => Some 0 end);
      reflexivity.
Qed.

End Listing.

(** *** [get_price_history] *)

Section History.

Variable hash : string -> Z.
Variable clock : nat -> Q.

Local Abbreviation walk := (synthetic_history hash).
Local Abbreviation step := (variation hash).

Lemma synthetic_history_length (p : string) (indices : list nat) (base_price : Q) :
  length (walk p indices base_price) = length indices.
Proof.
  revert base_price. induction indices as [|i rest IH]; intros base_price.
  - reflexivity.
  - cbn [synthetic_history length]. rewrite IH. reflexivity.
Qed.

(** The walk over [range(n)], shifted to start at index [a]: its first
    point moves the anchor, each later point moves its predecessor. *)
Lemma synthetic_history_walk (p : string) (n a : nat) (base_price : Q) :
  (forall x, walk p (seq a n) base_price !! 0%nat = Some x ->
             x = base_price * (1 + step p a)) /\
  (forall i prev next,
      walk p (seq a n) base_price !! i = Some prev ->
      walk p (seq a n) base_price !! S i = Some next ->
      next = prev * (1 + step p (a + S i))).
Proof.
  revert a base_price. induction n as [|n IH]; intros a base_price.
  - split; intros; discriminate.
  - cbn [seq synthetic_history]. split.
    + intros x Hx. cbn in Hx. congruence.
    + intros i prev next Hprev Hnext. destruct i as [|i].
      * cbn in Hprev. inversion Hprev; subst prev.
        cbn in Hnext. destruct (IH (S a) (base_price * (1 + step p a))) as [Hfirst _].
        rewrite (Hfirst next Hnext). f_equal. f_equal. f_equal. lia.
      * cbn in Hprev, Hnext.
        destruct (IH (S a) (base_price * (1 + step p a))) as [_ Hlater].
        rewrite (Hlater i prev next Hprev Hnext). f_equal. f_equal. f_equal. lia.
Qed.

Lemma variation_range (p : string) (i : nat) :
  -(1 # 100) <= step p i /\ step p i < 1 # 100.
Proof.
  unfold variation.
  set (h := (hash (p +:+ py_str_of_int (Z.of_nat i)) mod 200)%Z).
  assert (Hh : (0 <= h < 200)%Z) by (apply Z.mod_pos_bound; lia).
  assert (H1 : inject_Z (-100) <= inject_Z (h - 100)) by (rewrite <- Zle_Qle; lia).
  assert (H2 : inject_Z (h - 100) < inject_Z 100) by (rewrite <- Zlt_Qlt; lia).
  change (inject_Z (-100)) with (-100) in H1. change (inject_Z 100) with 100 in H2.
  split.
  - apply Qle_shift_div_l; [reflexivity|]. lra.
  - apply Qlt_shift_div_r; [reflexivity|]. lra.
Qed.

(** C5 (amended). When fewer than 20 spreads are stored for the pair, the
    reply holds exactly 20 entries: synthetic points followed by the
    stored ones.  The synthetic points form a walk whose first point moves
    the anchor by the variation of index 0 and whose every later point
    moves its predecessor by the variation of its index, each variation
    within one percent; the anchor is the last (most recent) stored
    value, or 1 when nothing is stored. *)
Theorem price_history_backfill (pair : string) (w : World) :
  let formatted_pair := py_replace "-" "/" pair in
  let stored := default [] (price_history w !! formatted_pair) in
  let anchor := default 1 (last stored) in
  (length stored < 20)%nat ->
  exists resp w' synthetic,
    get_price_history hash clock pair w = (Ret resp, w') /\
    h_history resp = synthetic ++ stored /\
    length (h_history resp) = 20%nat /\
    synthetic !! 0%nat = Some (anchor * (1 + step formatted_pair 0)) /\
    (forall i prev,
        synthetic !! i = Some prev -> (S i < length synthetic)%nat ->
        synthetic !! S i = Some (prev * (1 + step formatted_pair (S i)))) /\
    (forall i, -(1 # 100) <= step formatted_pair i /\ step formatted_pair i < 1 # 100) /\
    (stored = [] -> anchor = 1).
Proof.
  intros formatted_pair stored anchor Hshort.
  set (n := (20 - length stored)%nat).
  set (synthetic := walk formatted_pair (seq 0 n) anchor).
  assert (Hlen : length synthetic = n).
  { unfold synthetic. rewrite synthetic_history_length, length_seq. reflexivity. }
  destruct (synthetic_history_walk formatted_pair n 0 anchor) as [Hfirst Hlater].
  fold synthetic in Hfirst, Hlater.
  eexists _, _, synthetic. split.
  { unfold get_price_history, bind, get, time_time, ret. cbn [fst snd].
    fold formatted_pair. fold stored.
    destruct (Nat.ltb_spec (length stored) 20) as [_|Hge]; [|lia].
    fold anchor. fold n. fold synthetic. reflexivity. }
  cbn [h_history].
  assert (Htotal : length (synthetic ++ stored) = 20%nat).
  { rewrite length_app, Hlen. unfold n. lia. }
  assert (Hall : py_last 20 (synthetic ++ stored) = synthetic ++ stored).
  { unfold py_last. rewrite Htotal. reflexivity. }
  rewrite Hall. split; [reflexivity|]. split; [exact Htotal|].
  split.
  { destruct (synthetic !! 0%nat) as [x|] eqn:Hx.
    - rewrite (Hfirst x eq_refl). reflexivity.
    - apply lookup_ge_None in Hx. unfold n in Hlen. lia. }
  split.
  { intros i prev Hprev Hnext.
    destruct (synthetic !! S i) as [next|] eqn:Hn.
    - rewrite (Hlater i prev next Hprev Hn). reflexivity.
    - apply lookup_ge_None in Hn. lia. }
  split; [intros i; apply variation_range|].
  intros Hempty. unfold anchor. rewrite Hempty. reflexivity.
Qed.

End History.

(** ** Sample runs, witnesses and counterexamples *)

(** Twelve calls five time-units apart on the primary source: the first
    ten pass, the next two are denied. *)
Example rate_limit_run :
  fst (rate_limit_calls (steady_clock 5) "jupiter" 12 initial_world) =
    Ret [(0, true); (5, true); (10, true); (15, true); (20, true); (25, true);
         (30, true); (35, true); (40, true); (45, true); (50, false); (55, false)].
Proof. vm_compute. reflexivity. Qed.

(** A provider that always answers 429: three requests, two sleeps of
    1 + 1/2 and 2 + 1/2, then [None]. *)
Example throttled_fetch_run :
  let outcome := get_jupiter_quote (steady_clock 1) half_jitter unit always_throttled
               "So11111111111111111111111111111111111111112"
               "EPjFWdd5AufqSSqeM2qN1xzybapC8G4wEGGkZwyTDt1v" 1000000 initial_world in
  fst outcome = Ret None /\ http_calls (snd outcome) = 3%nat /\
  slept (snd outcome) = [3 # 2; 5 # 2].
Proof. vm_compute. auto. Qed.

(** The three-venue quotes publish three opportunities, best first. *)
Example published_run :
  (fun o => (o_buyDex o, o_sellDex o)) <$> current_opportunities published_world =
    [("Raydium", "Lifinity"); ("Raydium", "Orca"); ("Orca", "Lifinity")].
Proof. vm_compute. reflexivity. Qed.

Lemma steady_clock_monotone (step : Z) :
  (0 <= step)%Z -> forall i j, (i <= j)%nat -> steady_clock step i <= steady_clock step j.
Proof.
  intros Hstep i j Hij. unfold steady_clock. rewrite <- Zle_Qle.
  apply Z.mul_le_mono_nonneg_r; lia.
Qed.

Lemma rate_limit_budget_witness :
  exists log w',
    rate_limit_calls (steady_clock 5) "jupiter" 12 initial_world = (Ret log, w') /\
    length log = 12%nat /\
    (forall t : Q, (length (granted_in_window t log) <= 10)%nat) /\
    (forall w'', rate_limit_check (steady_clock 5) "jupiter" w' = (Ret false, w'') ->
                 api_call_times w'' = api_call_times w').
Proof.
  apply (rate_limit_budget_respected (steady_clock 5)).
  - apply steady_clock_monotone. lia.
  - reflexivity.
  - reflexivity.
Defined.

Lemma published_list_witness :
  generate_arbitrage_opportunities zero_hash frozen_clock three_venue_world
    = (Ret tt, published_world) /\
  (length (current_opportunities published_world) <= 10)%nat /\
  StronglySorted by_netProfit_desc (current_opportunities published_world) /\
  Forall profitable (current_opportunities published_world).
Proof.
  assert (Hrun : generate_arbitrage_opportunities zero_hash frozen_clock three_venue_world
                 = (Ret tt, published_world)) by (vm_compute; reflexivity).
  split; [exact Hrun|].
  exact (proj1 (published_list_bounded_sorted_profitable
                  zero_hash frozen_clock three_venue_world) published_world Hrun).
Defined.

(** Against the specification's wording, the empty route is classified
    "Unknown", not "Lifinity". *)
Lemma identify_dex_empty_route :
  unmatched [] /\ identify_dex_from_route [] = "Unknown" /\
  identify_dex_from_route [] <> "Lifinity".
Proof.
  split; [intros step info Hin; inversion Hin|].
  split; [reflexivity | discriminate].
Qed.

Lemma identify_dex_fallback_witness :
  unmatched unknown_two_hop_route /\
  (1 < length unknown_two_hop_route)%nat /\
  identify_dex_from_route unknown_two_hop_route = "Orca".
Proof.
  assert (Hno : unmatched unknown_two_hop_route).
  { intros step info Hin Hinfo dex_name program_ids pid Hdex Hpid.
    unfold unknown_two_hop_route, DEX_PROGRAM_IDS in *.
    set_unfold. destruct_or!; simplify_eq; set_unfold; destruct_or!; simplify_eq;
      vm_compute; reflexivity. }
  split; [exact Hno|]. split; [cbn; lia|].
  apply (proj1 (proj2 (identify_dex_fallback unknown_two_hop_route Hno))).
  cbn. lia.
Defined.

(** Against the specification's wording, the walk starts from the newest
    stored value: with 1 (older) and 2 (newer) stored, the first synthetic
    point is 2 moved by the first variation, not 1 moved by it. *)
Lemma backfill_anchor_is_newest :
  default [] (price_history two_spread_world !! "SOL/USDC") = [1; 2] /\
  exists resp first,
    fst (get_price_history zero_hash frozen_clock "SOL-USDC" two_spread_world) = Ret resp /\
    h_history resp !! 0%nat = Some first /\
    first == 2 * (1 + variation zero_hash "SOL/USDC" 0) /\
    ~ first == 1 * (1 + variation zero_hash "SOL/USDC" 0).
Proof.
  split; [vm_compute; reflexivity|].
  eexists _, _. split; [vm_compute; reflexivity|].
  split; [reflexivity|]. split; [reflexivity|].
  vm_compute. discriminate.
Qed.

Lemma price_history_backfill_witness :
  (length (default [] (price_history two_spread_world !! "SOL/USDC")) < 20)%nat /\
  exists resp w' synthetic,
    get_price_history zero_hash frozen_clock "SOL-USDC" two_spread_world = (Ret resp, w') /\
    h_history resp = synthetic ++ [1; 2] /\
    length (h_history resp) = 20%nat.
Proof.
  split; [vm_compute; lia|].
  destruct (price_history_backfill zero_hash frozen_clock "SOL-USDC" two_spread_world)
    as (resp & w' & synthetic & Hrun & Hsplit & Hlen & _).
  { vm_compute. lia. }
  exists resp, w', synthetic. split; [exact Hrun|]. split; [exact Hsplit | exact Hlen].
Defined.

(** Against the specification's wording, a pair can receive several
    spreads in one cycle: the series of SOL/USDC, empty before the cycle,
    holds three spreads after it, one for each of its three published
    opportunities. *)
Lemma three_spreads_in_one_cycle :
  generate_arbitrage_opportunities zero_hash frozen_clock three_venue_world
    = (Ret tt, published_world) /\
  price_history three_venue_world !! "SOL/USDC" = None /\
  o_pair <$> current_opportunities published_world = ["SOL/USDC"; "SOL/USDC"; "SOL/USDC"] /\
  length <$> (price_history published_world !! "SOL/USDC") = Some 3%nat.
Proof.
  split; [vm_compute; reflexivity|]. split; [vm_compute; reflexivity|].
  split; vm_compute; reflexivity.
Qed.

Lemma history_update_witness :
  generate_arbitrage_opportunities zero_hash frozen_clock three_venue_world
    = (Ret tt, published_world) /\
  price_history published_world !! "SOL/USDC" =
    Some (py_last 50
            (default [] (price_history three_venue_world !! "SOL/USDC") ++
             (o_spread <$> filter (fun o => o_pair o = "SOL/USDC")
                                  (current_opportunities published_world)))).
Proof.
  assert (Hrun : generate_arbitrage_opportunities zero_hash frozen_clock three_venue_world
                 = (Ret tt, published_world)) by (vm_compute; reflexivity).
  split; [exact Hrun|].
  apply (proj1 (history_gets_one_spread_per_published_opportunity
                  zero_hash frozen_clock three_venue_world "SOL/USDC")
               published_world Hrun).
  vm_compute. discriminate.
Defined.

Lemma fetch_bounded_witness :
  (forall k, 0 <= half_jitter k /\ half_jitter k <= 1) /\
  exists r w' waits,
    get_jupiter_quote_with_retry (steady_clock 1) half_jitter unit always_throttled
      "So11111111111111111111111111111111111111112"
      "EPjFWdd5AufqSSqeM2qN1xzybapC8G4wEGGkZwyTDt1v" 1000000 2 initial_world
      = (Ret r, w') /\
    (http_calls w' <= http_calls initial_world + (2 + 1))%nat /\
    slept w' = slept initial_world ++ waits /\
    (length waits <= 2)%nat /\
    foldr Qplus 0 waits <=
      foldr Qplus 0 ((fun i => inject_Z (2 ^ Z.of_nat i)) <$> seq 0 2)
      + inject_Z (Z.of_nat (length waits)).
Proof.
  assert (Hjitter : forall k, 0 <= half_jitter k /\ half_jitter k <= 1).
  { intros k. unfold half_jitter. split; vm_compute; discriminate. }
  split; [exact Hjitter|].
  exact (proj1 (fetch_attempts_and_backoff_bounded
                  (steady_clock 1) half_jitter unit always_throttled Hjitter
                  "So11111111111111111111111111111111111111112"
                  "EPjFWdd5AufqSSqeM2qN1xzybapC8G4wEGGkZwyTDt1v" 1000000 [] 2)
               initial_world).
Defined.

Lemma rate_limited_fetch_witness :
  rate_limit_check frozen_clock "jupiter" saturated_world
    = (Ret false, set_clock_reads 1 saturated_world) /\
  get_jupiter_quote_with_retry frozen_clock half_jitter unit always_throttled
    "So11111111111111111111111111111111111111112"
    "EPjFWdd5AufqSSqeM2qN1xzybapC8G4wEGGkZwyTDt1v" 1000000 2 saturated_world
    = (Ret None, set_clock_reads 1 saturated_world) /\
  http_calls (set_clock_reads 1 saturated_world) = http_calls saturated_world /\
  slept (set_clock_reads 1 saturated_world) = slept saturated_world.
Proof.
  assert (Hdenied : rate_limit_check frozen_clock "jupiter" saturated_world
                    = (Ret false, set_clock_reads 1 saturated_world))
    by (vm_compute; reflexivity).
  split; [exact Hdenied|].
  destruct (rate_limited_fetch_stops frozen_clock half_jitter unit always_throttled
              "jupiter" JUPITER_QUOTE_API 2 0 [1%nat; 2%nat]
              "So11111111111111111111111111111111111111112"
              "EPjFWdd5AufqSSqeM2qN1xzybapC8G4wEGGkZwyTDt1v" 1000000 []
              saturated_world _ Hdenied)
    as (_ & Hhttp & Hslept & _ & Hjupiter & _).
  split; [apply Hjupiter; reflexivity|]. split; [exact Hhttp | exact Hslept].
Defined.

Lemma simulate_trade_unknown_id_witness :
  simulate_trade zero_hash frozen_clock (Some "SOL-USDC-Raydium-Orca-1") (Some 500%Z)
                 published_world
    = (Ret TradeNotFound, published_world) /\
  status_of TradeNotFound = 404%Z.
Proof.
  apply (simulate_trade_unknown_id zero_hash frozen_clock).
  apply Forall_forall. vm_compute.
  repeat constructor; intros H; discriminate H.
Defined.

(** Against the specification's wording, the text of [maxLatency] can
    matter: over the same published list, the request with "1000" lists
    the three opportunities and the request with "abc" raises. *)
Lemma max_latency_text_matters :
  listing (fst (get_arbitrage_opportunities frozen_clock decimal_float decimal_int
                  {[ "maxLatency" := "1000" ]} published_world))
    = Ret (current_opportunities published_world, 3%nat) /\
  listing (fst (get_arbitrage_opportunities frozen_clock decimal_float decimal_int
                  {[ "maxLatency" := "abc" ]} published_world))
    = Raise ValueError.
Proof. split; vm_compute; reflexivity. Qed.

Lemma max_latency_is_ignored_witness :
  listing (fst (get_arbitrage_opportunities frozen_clock decimal_float decimal_int
                  {[ "maxLatency" := "5"; "minPnl" := "1" ]} published_world)) =
  listing (fst (get_arbitrage_opportunities frozen_clock decimal_float decimal_int
                  {[ "maxLatency" := "99999"; "minPnl" := "1" ]} published_world)).
Proof.
  apply (proj1 (max_latency_is_ignored frozen_clock decimal_float decimal_int
                  {[ "maxLatency" := "5"; "minPnl" := "1" ]}
                  {[ "maxLatency" := "99999"; "minPnl" := "1" ]}
                  published_world published_world)).
  - reflexivity.
  - vm_compute; reflexivity.
  - vm_compute; reflexivity.
  - intros text Htext. vm_compute in Htext. inversion Htext; subst.
    vm_compute. eauto.
  - intros text Htext. vm_compute in Htext. inversion Htext; subst.
    vm_compute. eauto.
Defined.

(** ** Further properties of the functions above *)

(** *** More on the venue classifier *)

Lemma dex_of_program_id_cases (program_id : string) :
  dex_of_program_id program_id =
    if py_str_in "675kPX9MHTjS2zt1qfr1NYHuzeLXfQM9H24wFSUt1Mp8" program_id
    then Some "Raydium"
    else if py_str_in "whirLbMiicVdio4qvUfM5KAg6Ct8VwpYzGff3uctyCc" program_id
    then Some "Orca"
    else if py_str_in "EewxydAPCCVuNEyrVN68PuSYdQ7wKn27V9Gjeoi8dy3S" program_id
    then Some "Lifinity"
    else None.
Proof.
  unfold dex_of_program_id, DEX_PROGRAM_IDS. cbn [List.find snd fst existsb].
  rewrite !orb_false_r.
  destruct (py_str_in "675kPX9MHTjS2zt1qfr1NYHuzeLXfQM9H24wFSUt1Mp8" program_id);
    [reflexivity|].
  destruct (py_str_in "whirLbMiicVdio4qvUfM5KAg6Ct8VwpYzGff3uctyCc" program_id);
    [reflexivity|].
  destruct (py_str_in "EewxydAPCCVuNEyrVN68PuSYdQ7wKn27V9Gjeoi8dy3S" program_id);
    reflexivity.
Qed.

Lemma dex_of_program_id_unmatched (step : RouteStep) (info : SwapInfo) :
  unmatched [step] -> r_swapInfo step = Some info ->
  dex_of_program_id (default "" (s_programId info)) = None.
Proof.
  intros Hno Hinfo. rewrite dex_of_program_id_cases.
  rewrite (Hno step info (list_elem_of_here _ _) Hinfo "Raydium"
             ["675kPX9MHTjS2zt1qfr1NYHuzeLXfQM9H24wFSUt1Mp8"]);
    [| unfold DEX_PROGRAM_IDS; (set_unfold; tauto) | (set_unfold; tauto)].
  rewrite (Hno step info (list_elem_of_here _ _) Hinfo "Orca"
             ["whirLbMiicVdio4qvUfM5KAg6Ct8VwpYzGff3uctyCc"]);
    [| unfold DEX_PROGRAM_IDS; (set_unfold; tauto) | (set_unfold; tauto)].
  rewrite (Hno step info (list_elem_of_here _ _) Hinfo "Lifinity"
             ["EewxydAPCCVuNEyrVN68PuSYdQ7wKn27V9Gjeoi8dy3S"]);
    [| unfold DEX_PROGRAM_IDS; (set_unfold; tauto) | (set_unfold; tauto)].
  reflexivity.
Qed.

Lemma scan_route_skip (before : list RouteStep) (rest : list RouteStep) :
  unmatched before -> scan_route (before ++ rest) = scan_route rest.
Proof.
  induction before as [|step before IH]; intros Hno; [reflexivity|].
  cbn [app scan_route].
  assert (Hrest : scan_route (before ++ rest) = scan_route rest).
  { apply IH. intros s info Hs. apply Hno. (set_unfold; tauto). }
  destruct (r_swapInfo step) as [info|] eqn:Hinfo; [|exact Hrest].
  cbv zeta. rewrite (dex_of_program_id_unmatched step info); [exact Hrest | | exact Hinfo].
  intros s i Hs. apply list_elem_of_singleton in Hs. subst s.
  apply Hno. (set_unfold; tauto).
Qed.

(** X1. First match wins: when the steps before [step] match nothing and
    the program identifier of [step] contains a known identifier, the
    route is classified by that step, whatever the later steps are, and
    by the first entry of the table (Raydium, then Orca, then Lifinity)
    whose identifier it contains. *)
Theorem identify_dex_first_match (before after : list RouteStep) (step : RouteStep)
    (info : SwapInfo) :
  unmatched before ->
  r_swapInfo step = Some info ->
  let program_id := default "" (s_programId info) in
  let route_plan := before ++ step :: after in
  (py_str_in "675kPX9MHTjS2zt1qfr1NYHuzeLXfQM9H24wFSUt1Mp8" program_id = true ->
   identify_dex_from_route route_plan = "Raydium") /\
  (py_str_in "675kPX9MHTjS2zt1qfr1NYHuzeLXfQM9H24wFSUt1Mp8" program_id = false ->
   py_str_in "whirLbMiicVdio4qvUfM5KAg6Ct8VwpYzGff3uctyCc" program_id = true ->
   identify_dex_from_route route_plan = "Orca") /\
  (py_str_in "675kPX9MHTjS2zt1qfr1NYHuzeLXfQM9H24wFSUt1Mp8" program_id = false ->
   py_str_in "whirLbMiicVdio4qvUfM5KAg6Ct8VwpYzGff3uctyCc" program_id = false ->
   py_str_in "EewxydAPCCVuNEyrVN68PuSYdQ7wKn27V9Gjeoi8dy3S" program_id = true ->
   identify_dex_from_route route_plan = "Lifinity").
Proof.
  intros Hno Hinfo program_id route_plan.
  assert (Hscan : scan_route route_plan = dex_of_program_id program_id \/
                  (dex_of_program_id program_id = None)).
  { unfold route_plan. rewrite scan_route_skip by exact Hno.
    cbn [scan_route]. rewrite Hinfo. cbv zeta. fold program_id.
    destruct (dex_of_program_id program_id); [left; reflexivity | right; reflexivity]. }
  assert (Hid : forall d, dex_of_program_id program_id = Some d ->
                          identify_dex_from_route route_plan = d).
  { intros d Hd. destruct Hscan as [Hscan|Hnone]; [|congruence].
    unfold identify_dex_from_route. rewrite Hscan, Hd.
    unfold route_plan. destruct before; reflexivity. }
  rewrite dex_of_program_id_cases in Hid.
  repeat split.
  - intros H1. apply Hid. rewrite H1. reflexivity.
  - intros H1 H2. apply Hid. rewrite H1, H2. reflexivity.
  - intros H1 H2 H3. apply Hid. rewrite H1, H2, H3. reflexivity.
Qed.

Lemma scan_route_some (route_plan : list RouteStep) (dex_name : string) :
  scan_route route_plan = Some dex_name ->
  exists step info,
    step ∈ route_plan /\ r_swapInfo step = Some info /\
    dex_of_program_id (default "" (s_programId info)) = Some dex_name.
Proof.
  induction route_plan as [|step rest IH]; [discriminate|].
  cbn [scan_route]. destruct (r_swapInfo step) as [info|] eqn:Hinfo.
  - cbv zeta. destruct (dex_of_program_id (default "" (s_programId info))) as [d|] eqn:Hd.
    + intros H; inversion H; subst. exists step, info. split; [(set_unfold; tauto)|]. auto.
    + intros H. destruct (IH H) as (s & i & Hs & Hi & Hdex).
      exists s, i. split; [(set_unfold; tauto)|]. auto.
  - intros H. destruct (IH H) as (s & i & Hs & Hi & Hdex).
    exists s, i. split; [(set_unfold; tauto)|]. auto.
Qed.

(** X2. The classifier answers one of four labels, and it answers
    "Lifinity" only when some step's program identifier contains the
    Lifinity program identifier: the structural fallback never yields it. *)
Theorem identify_dex_labels (route_plan : list RouteStep) :
  identify_dex_from_route route_plan ∈ ["Unknown"; "Raydium"; "Orca"; "Lifinity"] /\
  (identify_dex_from_route route_plan = "Lifinity" ->
   exists step info,
     step ∈ route_plan /\ r_swapInfo step = Some info /\
     py_str_in "EewxydAPCCVuNEyrVN68PuSYdQ7wKn27V9Gjeoi8dy3S"
               (default "" (s_programId info)) = true).
Proof.
  unfold identify_dex_from_route.
  destruct route_plan as [|step rest]; [split; [(set_unfold; tauto) | discriminate]|].
  destruct (scan_route (step :: rest)) as [d|] eqn:Hscan.
  - destruct (scan_route_some _ _ Hscan) as (s & i & Hs & Hi & Hd).
    rewrite dex_of_program_id_cases in Hd.
    destruct (py_str_in "675kPX9MHTjS2zt1qfr1NYHuzeLXfQM9H24wFSUt1Mp8" _);
      [inversion Hd; subst; split; [(set_unfold; tauto) | discriminate]|].
    destruct (py_str_in "whirLbMiicVdio4qvUfM5KAg6Ct8VwpYzGff3uctyCc" _);
      [inversion Hd; subst; split; [(set_unfold; tauto) | discriminate]|].
    destruct (py_str_in "EewxydAPCCVuNEyrVN68PuSYdQ7wKn27V9Gjeoi8dy3S" _) eqn:H3;
      [|discriminate].
    inversion Hd; subst. split; [(set_unfold; tauto)|]. intros _. exists s, i. auto.
  - destruct (Nat.eqb_spec (length (step :: rest)) 1) as [_|Hne];
      [split; [(set_unfold; tauto) | discriminate]|].
    destruct (Nat.ltb_spec 1 (length (step :: rest))) as [_|Hle];
      [split; [(set_unfold; tauto) | discriminate]|].
    cbn [length] in Hne, Hle. lia.
Qed.

(** *** More on the rate limiter *)

Section MoreRateLimiter.

Variable clock : nat -> Q.

(** X3. A call of [rate_limit_check] on one source, whatever it answers,
    leaves the timestamps of every other source, the published
    opportunities, the history and the quote cache as they were, and reads
    the clock exactly once. *)
Theorem rate_limit_check_frame (api_name : string) (w w' : World) (r : result bool) :
  rate_limit_check clock api_name w = (r, w') ->
  (forall other, other <> api_name ->
     api_call_times w' !! other = api_call_times w !! other) /\
  current_opportunities w' = current_opportunities w /\
  price_history w' = price_history w /\
  jupiter_quotes w' = jupiter_quotes w /\
  clock_reads w' = S (clock_reads w).
Proof.
  unfold rate_limit_check, bind, time_time, get, subscript, modify, ret, raise.
  simpl. destruct (api_call_times w !! api_name) as [calls|]; simpl.
  - destruct (MAX_CALLS_PER_MINUTE !! api_name) as [limit|]; simpl.
    + destruct (limit <=? _)%nat; simpl; intros H; inversion H; subst; simpl;
        (split; [intros other Hne; rewrite ?lookup_insert_ne by congruence; reflexivity
                | auto]).
    + intros H; inversion H; subst; simpl.
      split; [intros other Hne; rewrite lookup_insert_ne by congruence; reflexivity | auto].
  - intros H; inversion H; subst; simpl. auto.
Qed.

(** X4. The window reopens: once every stored timestamp of a source is
    at least 60 time-units old, a call on that source (with a positive
    budget) is granted and the stored window becomes the single new
    timestamp. *)
Theorem rate_limit_check_reopens (api_name : string) (w : World) (calls : list Q)
    (budget : nat) :
  api_call_times w !! api_name = Some calls ->
  MAX_CALLS_PER_MINUTE !! api_name = Some budget ->
  Forall (fun t => 60 <= clock (clock_reads w) - t) calls ->
  exists w',
    rate_limit_check clock api_name w = (Ret true, w') /\
    api_call_times w' !! api_name = Some [clock (clock_reads w)].
Proof.
  intros Hcalls Hmax Hold.
  assert (Hbudget : (0 < budget)%nat).
  { unfold MAX_CALLS_PER_MINUTE in Hmax.
    destruct (decide (api_name = "jupiter")) as [->|Hj].
    - rewrite lookup_insert_eq in Hmax. inversion Hmax. lia.
    - rewrite lookup_insert_ne in Hmax by congruence.
      destruct (decide (api_name = "coingecko")) as [->|Hc].
      + rewrite lookup_singleton_eq in Hmax. inversion Hmax. lia.
      + rewrite lookup_singleton_ne in Hmax by congruence. discriminate. }
  rewrite (rate_limit_check_eq clock api_name w calls budget Hcalls Hmax).
  assert (Hkept : filter (fun t => clock (clock_reads w) - t < 60) calls = []).
  { clear Hcalls. induction Hold as [|t l Ht _ IH]; [reflexivity|].
    rewrite filter_cons_False; [exact IH | lra]. }
  rewrite Hkept. cbn [length app].
  destruct (Nat.leb_spec budget 0) as [Hle|_]; [lia|].
  eexists. split; [reflexivity|]. cbn. apply lookup_insert_eq.
Qed.

End MoreRateLimiter.

(** *** More on fetching *)

Section MoreFetch.

Variable clock : nat -> Q.
Variable uniform : nat -> Q.
Variable Json : Type.
Variable http : nat -> Reply Json.

Local Abbreviation attempt_body := (fetch_attempt clock uniform Json http).

(** The wait-and-go-on step shared by the 429 branch and the handler. *)
Local Abbreviation waited attempt w :=
  (set_slept (slept w ++ [inject_Z (2 ^ Z.of_nat attempt) + uniform (uniform_draws w)])
             (set_uniform_draws (S (uniform_draws w)) w)).

(** One pass of the loop body, outcome by outcome. *)
Lemma fetch_attempt_eq (api_name url : string) (max_retries attempt : nat) (w : World) :
  attempt_body api_name url max_retries attempt w =
    match rate_limit_check clock api_name w with
    | (Raise _, w1) =>
        if (attempt <? max_retries)%nat then (Ret Next, waited attempt w1)
        else (Ret (Return None), w1)
    | (Ret false, w1) => (Ret (Return None), w1)
    | (Ret true, w1) =>
        let w2 := set_http_calls (S (http_calls w1)) w1 in
        match http (http_calls w1) with
        | Raises =>
            if (attempt <? max_retries)%nat then (Ret Next, waited attempt w2)
            else (Ret (Return None), w2)
        | Answers status_code body =>
            if (status_code =? 200)%Z then
              match body with
              | Some parsed => (Ret (Return (Some parsed)), w2)
              | None =>
                  if (attempt <? max_retries)%nat then (Ret Next, waited attempt w2)
                  else (Ret (Return None), w2)
              end
            else if (status_code =? 429)%Z then
              if (attempt <? max_retries)%nat then (Ret Next, waited attempt w2)
              else (Ret (Return None), set_uniform_draws (S (uniform_draws w2)) w2)
            else (Ret (Return None), w2)
        end
    end.
Proof.
  unfold fetch_attempt, try_except.
  destruct (rate_limit_check clock api_name w) as [[ok|e] w1] eqn:Hcheck.
  - rewrite (bind_ret _ _ _ _ _ Hcheck). destruct ok; [|reflexivity]. cbn [negb].
    unfold bind at 1. unfold requests_get at 1.
    destruct (http (http_calls w1)) as [|status_code body].
    + destruct (attempt <? max_retries)%nat; reflexivity.
    + cbn [fst snd]. destruct (status_code =? 200)%Z.
      * unfold bind, response_json. cbn [snd]. destruct body; [reflexivity|].
        destruct (attempt <? max_retries)%nat; reflexivity.
      * destruct (status_code =? 429)%Z; [|reflexivity].
        unfold bind, random_uniform_0_1.
        destruct (attempt <? max_retries)%nat; reflexivity.
  - rewrite (bind_raise _ _ _ _ _ Hcheck).
    destruct (attempt <? max_retries)%nat; reflexivity.
Qed.

(** X5. When the limiter grants the first attempt, a first reply that is
    neither a 429 nor a failure settles the fetch with that single
    request and without any sleep: status 200 with a body returns the
    body, any other status (a 500, a 404) returns [None] and is not
    retried. *)
Theorem first_reply_settles (api_name url : string) (max_retries : nat)
    (w w1 : World) (status_code : Z) (body : option Json) :
  rate_limit_check clock api_name w = (Ret true, w1) ->
  http (http_calls w) = Answers status_code body ->
  status_code <> 429%Z ->
  (status_code = 200%Z -> is_Some body) ->
  for_attempts (seq 0 (max_retries + 1)) (attempt_body api_name url max_retries) w =
    (Ret (if (status_code =? 200)%Z then body else None),
     set_http_calls (S (http_calls w)) w1).
Proof.
  intros Hgrant Hreply Hnot429 Hbody.
  destruct (rate_limit_check_quiet clock _ _ _ _ Hgrant) as (Hh & _ & _).
  rewrite Nat.add_1_r. cbn [seq for_attempts]. unfold bind.
  rewrite fetch_attempt_eq, Hgrant. cbv zeta. rewrite Hh, Hreply.
  destruct (Z.eqb_spec status_code 200) as [H200|_].
  - destruct (Hbody H200) as [parsed ->]. reflexivity.
  - destruct (Z.eqb_spec status_code 429) as [|_]; [contradiction|]. reflexivity.
Qed.

Lemma fetch_attempt_http (api_name url : string) (max_retries attempt : nat)
    (w w' : World) (ctl : result (loop_ctl (option Json))) :
  attempt_body api_name url max_retries attempt w = (ctl, w') ->
  (http_calls w <= http_calls w')%nat /\
  forall parsed, ctl = Ret (Return (Some parsed)) ->
    http (http_calls w) = Answers 200 (Some parsed) /\
    http_calls w' = S (http_calls w).
Proof.
  rewrite fetch_attempt_eq.
  destruct (rate_limit_check clock api_name w) as [[ok|e] w1] eqn:Hcheck;
    destruct (rate_limit_check_quiet clock _ _ _ _ Hcheck) as (Hh & _ & _).
  - destruct ok.
    + cbv zeta. rewrite Hh.
      destruct (http (http_calls w)) as [|status_code body] eqn:Hreply.
      * destruct (attempt <? max_retries)%nat; intros H; inversion H; subst; cbn;
          (split; [lia | intros p Hp; discriminate Hp]).
      * destruct (Z.eqb_spec status_code 200) as [->|_].
        -- destruct body as [parsed|].
           ++ intros H; inversion H; subst; cbn. split; [lia|].
              intros p Hp. inversion Hp; subst. auto.
           ++ destruct (attempt <? max_retries)%nat; intros H; inversion H; subst; cbn;
                (split; [lia | intros p Hp; discriminate Hp]).
        -- destruct (status_code =? 429)%Z; [destruct (attempt <? max_retries)%nat|];
             intros H; inversion H; subst; cbn;
             (split; [lia | intros p Hp; discriminate Hp]).
    + intros H; inversion H; subst. split; [lia | intros p Hp; discriminate Hp].
  - destruct (attempt <? max_retries)%nat; intros H; inversion H; subst; cbn;
      (split; [lia | intros p Hp; discriminate Hp]).
Qed.

Lemma for_attempts_some (api_name url : string) (max_retries : nat)
    (attempts : list nat) :
  forall (w w' : World) (parsed : Json),
    for_attempts attempts (attempt_body api_name url max_retries) w
      = (Ret (Some parsed), w') ->
    exists k, (http_calls w <= k < http_calls w')%nat /\
              http k = Answers 200 (Some parsed).
Proof.
  induction attempts as [|attempt rest IH]; intros w w' parsed Hrun.
  - discriminate Hrun.
  - cbn [for_attempts] in Hrun. unfold bind in Hrun.
    destruct (attempt_body api_name url max_retries attempt w) as [[ctl|e] w1] eqn:Hone;
      [|discriminate Hrun].
    destruct (fetch_attempt_http _ _ _ _ _ _ _ Hone) as [Hmono Hsome].
    destruct ctl as [|r].
    + destruct (IH _ _ _ Hrun) as (k & Hk & Hreply). exists k. split; [lia | exact Hreply].
    + inversion Hrun; subst. destruct (Hsome parsed eq_refl) as [Hreply Hnext].
      exists (http_calls w). split; [lia | exact Hreply].
Qed.

(** X6. A fetch returns data only if the provider sent it: when either
    fetch function returns [Some parsed], one of the requests it issued
    was answered with status 200 and the body [parsed]. *)
Theorem fetched_data_was_sent (input_mint output_mint : string) (amount : Z)
    (token_ids : list string) (max_retries : nat) (w w' : World) (parsed : Json) :
  get_jupiter_quote_with_retry clock uniform Json http
    input_mint output_mint amount max_retries w = (Ret (Some parsed), w') \/
  get_coingecko_prices_with_retry clock uniform Json http
    token_ids max_retries w = (Ret (Some parsed), w') ->
  exists k, (http_calls w <= k < http_calls w')%nat /\
            http k = Answers 200 (Some parsed).
Proof.
  intros [Hrun|Hrun]; eapply for_attempts_some; exact Hrun.
Qed.

Lemma rate_limit_check_room (api_name : string) (w : World) (calls : list Q)
    (budget : nat) :
  api_call_times w !! api_name = Some calls ->
  MAX_CALLS_PER_MINUTE !! api_name = Some budget ->
  (length calls < budget)%nat ->
  exists w1 calls',
    rate_limit_check clock api_name w = (Ret true, w1) /\
    api_call_times w1 !! api_name = Some calls' /\
    (length calls' <= S (length calls))%nat /\
    http_calls w1 = http_calls w /\ uniform_draws w1 = uniform_draws w /\
    slept w1 = slept w.
Proof.
  intros Hcalls Hmax Hroom.
  rewrite (rate_limit_check_eq clock api_name w calls budget Hcalls Hmax).
  pose proof (length_filter (fun t => clock (clock_reads w) - t < 60) calls) as Hle.
  destruct (Nat.leb_spec budget
              (length (filter (fun t => clock (clock_reads w) - t < 60) calls)))
    as [Hfull|_]; [lia|].
  eexists _, _. split; [reflexivity|]. cbn.
  rewrite lookup_insert_eq. split; [reflexivity|].
  rewrite length_app. cbn. split; [lia|]. auto.
Qed.

(** The waits of [n] successive retries that start at attempt [a] with
    [d] jitter draws already consumed. *)
Local Abbreviation waits_from a n d :=
  ((fun j => inject_Z (2 ^ Z.of_nat (a + j)) + uniform (d + j)) <$> seq 0 n).

Lemma waits_from_cons (a n d : nat) :
  waits_from a (S n) d =
    (inject_Z (2 ^ Z.of_nat a) + uniform d) :: waits_from (S a) n (S d).
Proof.
  cbn [seq fmap list_fmap]. rewrite !Nat.add_0_r. f_equal.
  rewrite <- fmap_S_seq, <- list_fmap_compose. apply list_fmap_ext.
  intros i j _. cbn. rewrite !Nat.add_succ_r. reflexivity.
Qed.

Lemma for_attempts_all_retried (api_name url : string) (max_retries budget : nat) :
  MAX_CALLS_PER_MINUTE !! api_name = Some budget ->
  (forall k, retried (http k)) ->
  forall (n a : nat) (w : World) (calls : list Q),
    (a + n = max_retries)%nat ->
    api_call_times w !! api_name = Some calls ->
    (length calls + n + 1 <= budget)%nat ->
    exists w',
      for_attempts (seq a (n + 1)) (attempt_body api_name url max_retries) w
        = (Ret None, w') /\
      http_calls w' = (http_calls w + n + 1)%nat /\
      slept w' = slept w ++ waits_from a n (uniform_draws w).
Proof.
  intros Hmax Hall. induction n as [|n IH]; intros a w calls Han Hcalls Hroom.
  - destruct (rate_limit_check_room api_name w calls budget Hcalls Hmax)
      as (w1 & calls' & Hgrant & _ & _ & Hh & Hu & Hs); [lia|].
    cbn [Nat.add seq for_attempts]. unfold bind.
    rewrite fetch_attempt_eq, Hgrant. cbv zeta. rewrite Hh.
    assert (Hlast : (a <? max_retries)%nat = false) by (apply Nat.ltb_ge; lia).
    rewrite Hlast. pose proof (Hall (http_calls w)) as Hretry.
    destruct (http (http_calls w)) as [|status_code body].
    + eexists. split; [reflexivity|]. cbn. rewrite Hs, app_nil_r. split; [lia | reflexivity].
    + cbn in Hretry. destruct Hretry as [->|[-> ->]].
      * cbn. eexists. split; [reflexivity|]. cbn. rewrite Hs, app_nil_r.
        split; [lia | reflexivity].
      * cbn. eexists. split; [reflexivity|]. cbn. rewrite Hs, app_nil_r.
        split; [lia | reflexivity].
  - destruct (rate_limit_check_room api_name w calls budget Hcalls Hmax)
      as (w1 & calls' & Hgrant & Hcalls' & Hlen' & Hh & Hu & Hs); [lia|].
    cbn [Nat.add seq for_attempts]. unfold bind at 1.
    rewrite fetch_attempt_eq, Hgrant. cbv zeta. rewrite Hh.
    assert (Hmore : (a <? max_retries)%nat = true) by (apply Nat.ltb_lt; lia).
    rewrite Hmore.
    set (w2 := set_slept
                 (slept w1 ++ [inject_Z (2 ^ Z.of_nat a) + uniform (uniform_draws w1)])
                 (set_uniform_draws (S (uniform_draws w1))
                    (set_http_calls (S (http_calls w)) w1))).
    destruct (IH (S a) w2 calls') as (w' & Hrest & Hhttp & Hslept).
    { lia. }
    { exact Hcalls'. }
    { lia. }
    exists w'.
    assert (Hgoal : for_attempts (seq (S a) (n + 1))
                      (attempt_body api_name url max_retries) w2 = (Ret None, w'))
      by exact Hrest.
    pose proof (Hall (http_calls w)) as Hretry.
    split.
    + destruct (http (http_calls w)) as [|status_code body].
      * exact Hgoal.
      * cbn in Hretry. destruct Hretry as [->|[-> ->]]; exact Hgoal.
    + split.
      * rewrite Hhttp. unfold w2. cbn. lia.
      * rewrite Hslept. change (0%nat :: seq 1 n) with (seq 0 (S n)). rewrite waits_from_cons.
        change (slept w2) with
          (slept w1 ++ [inject_Z (2 ^ Z.of_nat a) + uniform (uniform_draws w1)]).
        change (uniform_draws w2) with (S (uniform_draws w1)).
        rewrite Hs, Hu, <- app_assoc. reflexivity.
Qed.

(** X7. The backoff schedule under persistent failure: when the window
    of the source has room for [max_retries + 1] more calls and every
    request raises, is answered 429, or is answered 200 with a body that
    does not parse, the fetch issues exactly [max_retries + 1] requests,
    sleeps exactly [max_retries] times, the i-th sleep lasting [2^i] plus
    the i-th jitter drawn, and returns [None]. *)
Theorem persistent_failure_schedule (api_name : string) (max_retries budget : nat)
    (input_mint output_mint : string) (amount : Z) (token_ids : list string)
    (w : World) (calls : list Q) :
  MAX_CALLS_PER_MINUTE !! api_name = Some budget ->
  api_call_times w !! api_name = Some calls ->
  (length calls + max_retries + 1 <= budget)%nat ->
  (forall k, retried (http k)) ->
  exists w',
    (api_name = "jupiter" ->
     get_jupiter_quote_with_retry clock uniform Json http
       input_mint output_mint amount max_retries w = (Ret None, w')) /\
    (api_name = "coingecko" ->
     get_coingecko_prices_with_retry clock uniform Json http
       token_ids max_retries w = (Ret None, w')) /\
    http_calls w' = (http_calls w + max_retries + 1)%nat /\
    slept w' = slept w ++
      ((fun i => inject_Z (2 ^ Z.of_nat i) + uniform (uniform_draws w + i))
         <$> seq 0 max_retries).
Proof.
  intros Hmax Hcalls Hroom Hall.
  destruct (for_attempts_all_retried api_name "" max_retries budget Hmax Hall
              max_retries 0 w calls) as (w' & Hrun & Hhttp & Hslept);
    [lia | exact Hcalls | lia |].
  exists w'. split; [intros ->; exact Hrun|]. split; [intros ->; exact Hrun|].
  split; [exact Hhttp | exact Hslept].
Qed.

End MoreFetch.

(** *** Loops, once more *)

Lemma for_each_post {A S : Type} (Inv : S -> World -> Prop) (Exn : exn -> World -> Prop)
    (xs : list A) (body : A -> S -> M S) :
  (forall x acc w r w', x ∈ xs -> Inv acc w -> body x acc w = (r, w') ->
     match r with Ret acc' => Inv acc' w' | Raise e => Exn e w' end) ->
  forall acc w r w', Inv acc w -> for_each xs body acc w = (r, w') ->
     match r with Ret acc' => Inv acc' w' | Raise e => Exn e w' end.
Proof.
  induction xs as [|x rest IH]; intros Hbody acc w r w' Hacc Hrun.
  - cbn in Hrun. inversion Hrun; subst. exact Hacc.
  - cbn [for_each] in Hrun. unfold bind in Hrun.
    destruct (body x acc w) as [[acc1|e] w1] eqn:Hx.
    + pose proof (Hbody x acc w _ w1 (list_elem_of_here _ _) Hacc Hx) as Hnext.
      apply (IH (fun y a v r0 v' Hy => Hbody y a v r0 v' (list_elem_of_further _ _ _ Hy))
                acc1 w1 r w' Hnext Hrun).
    + inversion Hrun; subst.
      apply (Hbody x acc w _ w' (list_elem_of_here _ _) Hacc Hx).
Qed.

Section MoreDetection.

Variable hash : string -> Z.
Variable clock : nat -> Q.

Local Abbreviation generate := (generate_arbitrage_opportunities hash clock).
Local Abbreviation scan := (scan_pair hash clock).

Lemma py_min_le_r (a b : Q) : py_min a b <= b.
Proof. unfold py_min. destruct (decide (b < a)); lra. Qed.

(** Every outcome of [consider]: nothing added, one sound opportunity of
    the pair added, or a division by a zero buy price. *)
Lemma consider_outcome (pair : string) (buy sell : nat * Quote)
    (found : list Opportunity) (w : World) (r : result (list Opportunity)) (w' : World) :
  consider hash clock pair buy sell found w = (r, w') ->
  same_globals w w' /\
  match r with
  | Ret found' =>
      found' = found \/
      exists o, found' = found ++ [o] /\ o_pair o = pair /\ sound_opportunity hash o
  | Raise e => e = ZeroDivisionError /\ q_price (snd buy) == 0
  end.
Proof.
  unfold consider. destruct buy as [i buy_quote], sell as [j sell_quote].
  destruct (i =? j)%nat.
  { intros H; inversion H; subst. split; [apply same_globals_refl | left; reflexivity]. }
  unfold bind, py_div.
  destruct (Qeq_bool (q_price buy_quote) 0) eqn:Hzero.
  { intros H; inversion H; subst. split; [apply same_globals_refl|].
    split; [reflexivity | apply Qeq_bool_iff; exact Hzero]. }
  apply Qeq_bool_neq in Hzero.
  cbn [ret]. unfold ret at 1.
  destruct (decide (0.1 < _)) as [Hspread|_];
    [|intros H; inversion H; subst; split; [apply same_globals_refl | left; reflexivity]].
  destruct (decide (0 < _)) as [Hpos|_];
    [|intros H; inversion H; subst; split; [apply same_globals_refl | left; reflexivity]].
  unfold time_time, ret. cbn. intros H; inversion H; subst.
  split; [repeat split|]. right. eexists. split; [reflexivity|].
  split; [reflexivity|]. unfold sound_opportunity. cbn.
  split; [exact Hzero|]. split; [reflexivity|]. split; [exact Hspread|].
  split; [reflexivity|]. split; [reflexivity|]. split; [exact Hpos|].
  split; [apply py_min_le_r | reflexivity].
Qed.

(** The detection loops keep a property of the opportunities found so
    far when every sound opportunity of the pair has it. *)
Lemma detect_post (P : Opportunity -> Prop) (pair : string) (quotes : list Quote)
    (found : list Opportunity) (w : World) (r : result (list Opportunity)) (w' : World) :
  (forall o, o_pair o = pair -> sound_opportunity hash o -> P o) ->
  Forall P found ->
  detect hash clock pair quotes found w = (r, w') ->
  same_globals w w' /\
  match r with
  | Ret found' => Forall P found'
  | Raise e => e = ZeroDivisionError /\ exists q, q ∈ quotes /\ q_price q == 0
  end.
Proof.
  intros HP Hfound Hrun. unfold detect in Hrun.
  pose (Inv := fun (acc : list Opportunity) (v : World) =>
                 same_globals w v /\ Forall P acc).
  pose (Exn := fun (e : exn) (v : World) =>
                 same_globals w v /\ e = ZeroDivisionError /\
                 exists q, q ∈ quotes /\ q_price q == 0).
  assert (Hpost : match r with Ret acc' => Inv acc' w' | Raise e => Exn e w' end).
  { apply (fun Hb Hi => for_each_post Inv Exn _ _ Hb found w r w' Hi Hrun);
      [|split; [apply same_globals_refl | exact Hfound]].
    intros buy acc v r1 v1 Hbuy Hacc Hinner.
    apply (fun Hb => for_each_post Inv Exn _ _ Hb acc v r1 v1 Hacc Hinner).
    intros sell acc2 v2 r2 v3 Hsell [Hsame2 Hacc2] Hone.
    destruct (consider_outcome _ _ _ _ _ _ _ Hone) as [Hsame3 Hr2].
    destruct r2 as [found2|e].
    - split; [eapply same_globals_trans; eassumption|].
      destruct Hr2 as [->|(o & -> & Hpair & Hsound)]; [exact Hacc2|].
      apply Forall_app. split; [exact Hacc2|]. constructor; [|constructor].
      apply HP; assumption.
    - destruct Hr2 as [-> Hzero]. split; [eapply same_globals_trans; eassumption|].
      split; [reflexivity|]. exists (snd buy). split; [|exact Hzero].
      destruct buy as [i q]. unfold enumerate in Hbuy.
      apply elem_of_zip_r in Hbuy. exact Hbuy. }
  destruct r as [found'|e]; [destruct Hpost; auto | destruct Hpost as (? & ? & ?); auto].
Qed.

Lemma scan_pair_post (P : Opportunity -> Prop) (pair : string)
    (found : list Opportunity) (w : World) (r : result (list Opportunity)) (w' : World) :
  (forall o, o_pair o = pair -> sound_opportunity hash o -> P o) ->
  Forall P found ->
  scan pair found w = (r, w') ->
  same_globals w w' /\
  match r with
  | Ret found' => Forall P found'
  | Raise e =>
      e = ZeroDivisionError /\
      exists entry q,
        jupiter_quotes w !! ("quotes_" +:+ pair) = Some entry /\
        q ∈ c_data entry /\ q_price q == 0
  end.
Proof.
  intros HP Hfound. unfold scan_pair, bind, get.
  destruct (jupiter_quotes w !! ("quotes_" +:+ pair)) as [entry|] eqn:Hentry.
  - unfold time_time at 1.
    destruct (decide (5 < _)).
    + intros H; inversion H; subst. split; [repeat split | exact Hfound].
    + intros Hrun. destruct (detect_post P _ _ _ _ _ _ HP Hfound Hrun) as [Hsame Hr].
      split; [destruct Hsame as (A & B & C & D); repeat split; assumption|].
      destruct r as [found'|e]; [exact Hr|].
      destruct Hr as (He & q & Hq & Hzero). split; [exact He|]. exists entry, q. auto.
  - intros H; inversion H; subst. split; [apply same_globals_refl | exact Hfound].
Qed.

(** The loop over the configured pairs. *)
Lemma detection_post (P : Opportunity -> Prop) (w : World)
    (r : result (list Opportunity)) (w1 : World) :
  (forall o, o_pair o ∈ (fst <$> TRADING_PAIRS) -> sound_opportunity hash o -> P o) ->
  for_each (fst <$> TRADING_PAIRS) scan [] w = (r, w1) ->
  same_globals w w1 /\
  match r with
  | Ret found => Forall P found
  | Raise e =>
      e = ZeroDivisionError /\
      exists pair entry q,
        pair ∈ (fst <$> TRADING_PAIRS) /\
        jupiter_quotes w !! ("quotes_" +:+ pair) = Some entry /\
        q ∈ c_data entry /\ q_price q == 0
  end.
Proof.
  intros HP Hrun.
  pose (Inv := fun (acc : list Opportunity) (v : World) =>
                 same_globals w v /\ Forall P acc).
  pose (Exn := fun (e : exn) (v : World) =>
                 same_globals w v /\ e = ZeroDivisionError /\
                 exists pair entry q,
                   pair ∈ (fst <$> TRADING_PAIRS) /\
                   jupiter_quotes w !! ("quotes_" +:+ pair) = Some entry /\
                   q ∈ c_data entry /\ q_price q == 0).
  assert (Hpost : match r with Ret acc' => Inv acc' w1 | Raise e => Exn e w1 end).
  { apply (fun Hb Hi => for_each_post Inv Exn _ _ Hb [] w r w1 Hi Hrun);
      [|split; [apply same_globals_refl | constructor]].
    intros pair acc v r1 v1 Hpair [Hsame Hacc] Hone.
    assert (HPpair : forall o, o_pair o = pair -> sound_opportunity hash o -> P o).
    { intros o Ho. apply HP. rewrite Ho. exact Hpair. }
    destruct (scan_pair_post P pair acc v r1 v1 HPpair Hacc Hone) as [Hsame1 Hr1].
    destruct r1 as [found1|e].
    - split; [eapply same_globals_trans; eassumption | exact Hr1].
    - destruct Hr1 as (He & entry & q & Hentry & Hq & Hzero).
      split; [eapply same_globals_trans; eassumption|]. split; [exact He|].
      exists pair, entry, q. split; [exact Hpair|].
      destruct Hsame as (_ & _ & Hjq & _). rewrite <- Hjq. auto. }
  destruct r as [found|e]; [destruct Hpost; auto | destruct Hpost as (? & ? & ?); auto].
Qed.

(** X8. Every opportunity published by a run that completes belongs to
    a configured pair and is sound: its buy price is not zero, its spread
    is the relative price difference in percent and exceeds 0.1, its gas
    estimate is the one of its venue couple and lies between 0.01 and
    0.03, its net profit is its estimated profit minus that gas and is
    positive, its confidence is at most 100, and its route names its two
    venues. *)
Theorem published_opportunities_sound (w w' : World) :
  generate w = (Ret tt, w') ->
  Forall (fun o => o_pair o ∈ (fst <$> TRADING_PAIRS) /\
                   sound_opportunity hash o /\
                   0.01 <= o_estimatedGas o /\ o_estimatedGas o <= 0.03)
         (current_opportunities w').
Proof.
  intros Hrun.
  destruct (generate_outcome hash clock w) as (r1 & w1 & Hloop & _ & Hr).
  set (P := fun o => o_pair o ∈ (fst <$> TRADING_PAIRS) /\
                     sound_opportunity hash o /\
                     0.01 <= o_estimatedGas o /\ o_estimatedGas o <= 0.03).
  assert (HP : forall o, o_pair o ∈ (fst <$> TRADING_PAIRS) ->
                         sound_opportunity hash o -> P o).
  { intros o Hpair Hsound. split; [exact Hpair|]. split; [exact Hsound|].
    destruct Hsound as (_ & _ & _ & Hgas & _). rewrite Hgas.
    apply (gas_range hash). }
  destruct (detection_post P w r1 w1 HP Hloop) as [_ Hfound].
  destruct r1 as [found|e].
  - destruct Hr as [_ Hgen]. cbv zeta in Hgen. rewrite Hgen in Hrun.
    inversion Hrun; subst w'. cbn.
    apply Forall_take. rewrite sort_perm. exact Hfound.
  - rewrite Hr in Hrun. discriminate Hrun.
Qed.

(** X9. The only way a run fails is a division by zero: a run that
    raises raises [ZeroDivisionError], some quote cached for a configured
    pair has price zero, and the module globals are as before the run;
    hence a run over quotes with non-zero prices completes. *)
Theorem generate_fails_only_on_zero_price (w : World) :
  (forall e w', generate w = (Raise e, w') ->
     e = ZeroDivisionError /\ same_globals w w' /\
     exists pair entry q,
       pair ∈ (fst <$> TRADING_PAIRS) /\
       jupiter_quotes w !! ("quotes_" +:+ pair) = Some entry /\
       q ∈ c_data entry /\ q_price q == 0) /\
  ((forall pair entry q,
      pair ∈ (fst <$> TRADING_PAIRS) ->
      jupiter_quotes w !! ("quotes_" +:+ pair) = Some entry ->
      q ∈ c_data entry -> ~ q_price q == 0) ->
   exists w', generate w = (Ret tt, w')).
Proof.
  destruct (generate_outcome hash clock w) as (r1 & w1 & Hloop & Hsame & Hr).
  destruct (detection_post (fun _ => True) w r1 w1 (fun _ _ _ => I) Hloop) as [_ Hpost].
  destruct r1 as [found|e1].
  - destruct Hr as [_ Hgen]. cbv zeta in Hgen. split.
    + intros e w' Hrun. rewrite Hgen in Hrun. discriminate Hrun.
    + intros _. eexists. exact Hgen.
  - destruct Hpost as (He & pair & entry & q & Hpair & Hentry & Hq & Hzero). split.
    + intros e w' Hrun. rewrite Hr in Hrun. inversion Hrun; subst.
      split; [reflexivity|]. split; [exact Hsame|]. exists pair, entry, q. auto.
    + intros Hnonzero. exfalso. apply (Hnonzero pair entry q Hpair Hentry Hq Hzero).
Qed.

Lemma detect_few_quotes (pair : string) (quotes : list Quote)
    (found : list Opportunity) (w : World) :
  (length quotes <= 1)%nat ->
  detect hash clock pair quotes found w = (Ret found, w).
Proof.
  intros Hfew. destruct quotes as [|q [|q' rest]]; [reflexivity | | cbn in Hfew; lia].
  unfold detect, enumerate. cbn [length seq zip zip_with for_each]. unfold bind.
  rewrite consider_same_position. reflexivity.
Qed.

(** X10. A cycle without usable quotes publishes nothing: when the cache
    entry of every configured pair is missing, holds at most one quote, or
    is stale at every reading of the clock, the run completes, the
    published list becomes empty and the history is left as it was. *)
Theorem no_usable_quotes_no_opportunities (w : World) :
  (forall pair entry,
      pair ∈ (fst <$> TRADING_PAIRS) ->
      jupiter_quotes w !! ("quotes_" +:+ pair) = Some entry ->
      unusable clock entry) ->
  exists w',
    generate w = (Ret tt, w') /\
    current_opportunities w' = [] /\
    price_history w' = price_history w.
Proof.
  intros Hunusable.
  destruct (generate_outcome hash clock w) as (r1 & w1 & Hloop & Hsame & Hr).
  pose (Inv := fun (acc : list Opportunity) (v : World) =>
                 same_globals w v /\ acc = []).
  assert (Hpost : match r1 with
                  | Ret acc' => Inv acc' w1
                  | Raise e => False
                  end).
  { apply (fun Hb Hi => for_each_post Inv (fun _ _ => False) _ _ Hb [] w r1 w1 Hi Hloop);
      [|split; [apply same_globals_refl | reflexivity]].
    intros pair acc v r v1 Hpair [Hsamev ->]. unfold scan_pair, bind, get.
    destruct Hsamev as (Hc & Hp & Hjq & Ha). rewrite Hjq.
    destruct (jupiter_quotes w !! ("quotes_" +:+ pair)) as [entry|] eqn:Hentry.
    - unfold time_time at 1.
      destruct (decide (5 < _)) as [_|Hfresh].
      + intros H; inversion H; subst. split; [repeat split; assumption | reflexivity].
      + destruct (Hunusable pair entry Hpair Hentry) as [Hfew|Hstale].
        * rewrite detect_few_quotes by exact Hfew.
          intros H; inversion H; subst. split; [repeat split; assumption | reflexivity].
        * exfalso. apply Hfresh. apply Hstale.
    - intros H; inversion H; subst. split; [repeat split; assumption | reflexivity]. }
  destruct r1 as [found|e]; [|contradiction].
  destruct Hpost as [_ ->]. destruct Hr as [_ Hgen]. cbv zeta in Hgen.
  eexists. split; [exact Hgen|]. cbn. split; [reflexivity|]. apply Hsame.
Qed.

(** X11. The published list is the best of what was detected: it and
    the opportunities left out make up exactly the detected ones, every
    opportunity left out has a net profit no greater than every published
    one, and nothing is left out unless more than 10 were detected. *)
Theorem published_are_the_best (w w1 w' : World) (found : list Opportunity) :
  for_each (fst <$> TRADING_PAIRS) scan [] w = (Ret found, w1) ->
  generate w = (Ret tt, w') ->
  exists left_out,
    found ≡ₚ current_opportunities w' ++ left_out /\
    length left_out = (length found - 10)%nat /\
    forall kept worse, kept ∈ current_opportunities w' -> worse ∈ left_out ->
                       o_netProfit worse <= o_netProfit kept.
Proof.
  intros Hloop Hrun.
  destruct (generate_outcome hash clock w) as (r1 & w2 & Hloop' & _ & Hr).
  rewrite Hloop in Hloop'. inversion Hloop'; subst r1 w2.
  destruct Hr as [_ Hgen]. cbv zeta in Hgen. rewrite Hgen in Hrun.
  inversion Hrun; subst w'. cbn.
  exists (drop 10 (sort_by_netProfit_desc found)).
  split; [rewrite take_drop, sort_perm; reflexivity|].
  split; [rewrite length_drop, sort_perm; reflexivity|].
  intros kept worse Hkept Hworse.
  pose proof (sort_sorted found) as Hsorted.
  rewrite <- (take_drop 10 (sort_by_netProfit_desc found)) in Hsorted.
  apply (StronglySorted_app_1_elem_of _ _ _ _ _ Hsorted Hkept Hworse).
Qed.

Lemma insert_desc_ties (k : Q) (x : Opportunity) (l : list Opportunity) :
  filter (fun o => o_netProfit o == k) (insert_desc x l) =
  filter (fun o => o_netProfit o == k) (x :: l).
Proof.
  induction l as [|y rest IH]; [reflexivity|].
  cbn [insert_desc]. destruct (decide (o_netProfit x < o_netProfit y)) as [Hlt|_];
    [|reflexivity].
  rewrite (filter_cons _ y), IH, !(filter_cons _ x), (filter_cons _ y).
  destruct (decide (o_netProfit x == k)) as [Hx|_]; [|reflexivity].
  destruct (decide (o_netProfit y == k)) as [Hy|_]; [|reflexivity].
  exfalso. rewrite Hx, Hy in Hlt. lra.
Qed.

(** X12. The model of [list.sort(key=netProfit, reverse=True)] is the
    stable sort by decreasing key: its result is a rearrangement of its
    input in decreasing order of [netProfit], and opportunities with the
    same [netProfit] stay in the order in which they were detected. *)
Theorem sort_by_netProfit_desc_stable (l : list Opportunity) :
  sort_by_netProfit_desc l ≡ₚ l /\
  StronglySorted by_netProfit_desc (sort_by_netProfit_desc l) /\
  forall k : Q,
    filter (fun o => o_netProfit o == k) (sort_by_netProfit_desc l) =
    filter (fun o => o_netProfit o == k) l.
Proof.
  split; [apply sort_perm|]. split; [apply sort_sorted|].
  intros k. induction l as [|x rest IH]; [reflexivity|].
  cbn [sort_by_netProfit_desc foldr]. rewrite insert_desc_ties, !filter_cons.
  fold (sort_by_netProfit_desc rest). rewrite IH. reflexivity.
Qed.

End MoreDetection.

(** *** More on the request handlers *)

Section MoreHandlers.

Variable hash : string -> Z.
Variable clock : nat -> Q.
Variable float_of_str : string -> option Q.
Variable int_of_str : string -> option Z.

Lemma find_id_first (wanted : string) (before after : list Opportunity)
    (opportunity : Opportunity) :
  (forall o, o ∈ before -> o_id o <> wanted) ->
  o_id opportunity = wanted ->
  List.find (fun opp => String.eqb (o_id opp) wanted) (before ++ opportunity :: after)
    = Some opportunity.
Proof.
  intros Hbefore Hid. induction before as [|o rest IH]; cbn [app List.find].
  - rewrite Hid, String.eqb_refl. reflexivity.
  - destruct (String.eqb_spec (o_id o) wanted) as [Heq|_].
    + exfalso. apply (Hbefore o); [apply list_elem_of_here | exact Heq].
    + apply IH. intros o' Ho'. apply Hbefore. apply list_elem_of_further. exact Ho'.
Qed.

Lemma mod_range_Q (h m : Z) :
  (0 < m)%Z -> 0 <= inject_Z (h mod m) /\ inject_Z (h mod m) < inject_Z m.
Proof.
  intros Hm. pose proof (Z.mod_pos_bound h m Hm) as [H0 H1].
  split.
  - change 0 with (inject_Z 0). rewrite <- Zle_Qle. exact H0.
  - rewrite <- Zlt_Qlt. exact H1.
Qed.

(** X13. For the id of a published opportunity, [simulate_trade]
    simulates the first opportunity that carries it: the latency lies in
    [100, 600) and the slippage impact in [0.1, 0.6), the reported profit
    is the net profit scaled by amount/1000 and reduced by the impact, the
    handler sleeps once for latency/1000, reads the clock once, and leaves
    the module globals as they were. *)
Theorem simulate_trade_known_id (wanted : string) (amount : option Z) (w : World)
    (before after : list Opportunity) (opportunity : Opportunity) :
  current_opportunities w = before ++ opportunity :: after ->
  (forall o, o ∈ before -> o_id o <> wanted) ->
  o_id opportunity = wanted ->
  exists latency impact stamp w',
    simulate_trade hash clock (Some wanted) amount w =
      (Ret (TradeDone latency (o_netProfit opportunity)
              (o_netProfit opportunity * (inject_Z (default 1000%Z amount) / 1000)
               * (1 - impact / 100))
              impact (o_estimatedGas opportunity) (o_route opportunity) stamp), w') /\
    (100 <= latency < 600)%Z /\
    0.1 <= impact /\ impact < 0.6 /\
    slept w' = slept w ++ [inject_Z latency / 1000] /\
    clock_reads w' = S (clock_reads w) /\
    same_globals w w'.
Proof.
  intros Hpub Hbefore Hid.
  unfold simulate_trade, bind, get. cbv zeta.
  rewrite Hpub, (find_id_first wanted before after opportunity Hbefore Hid).
  unfold sleep, modify, time_time, ret. cbn [default].
  eexists _, _, _, _. split; [reflexivity|].
  pose proof (Z.mod_pos_bound (hash wanted) 500 ltac:(lia)) as Hlat.
  split; [unfold id; lia|].
  destruct (mod_range_Q (hash (id wanted +:+ py_str_of_int (default 1000%Z amount))) 50
              ltac:(lia)) as [H0 H1].
  change (inject_Z 50) with 50 in H1.
  set (m := inject_Z (hash (id wanted +:+ py_str_of_int (default 1000%Z amount)) mod 50)) in *.
  assert (H2 : 0 <= m / 100) by (apply Qle_shift_div_l; [reflexivity | lra]).
  assert (H3 : m / 100 < 0.5) by (apply Qlt_shift_div_r; [reflexivity | lra]).
  split; [lra|]. split; [lra|].
  split; [reflexivity|]. split; [reflexivity|]. repeat split.
Qed.

Local Abbreviation handler := (get_arbitrage_opportunities clock float_of_str int_of_str).

Lemma pair_selected_spec (pair_filter : option string) (opp : Opportunity) :
  pair_selected pair_filter opp = true <->
  pair_filter = None \/ pair_filter = Some "" \/ pair_filter = Some "All" \/
  pair_filter = Some (o_pair opp).
Proof.
  unfold pair_selected. destruct pair_filter as [wanted|].
  - rewrite !orb_true_iff, !String.eqb_eq. split.
    + intros [[H|H]|H]; subst; auto.
    + intros [H|[H|[H|H]]]; try discriminate H; inversion H; subst; auto.
  - split; auto.
Qed.

(** X14. What a listing request returns: when [minPnl] is absent or
    parses to [min_pnl] (0 when absent) and [maxLatency] is absent or
    parses, the reply lists, in published order, exactly the published
    opportunities whose net profit is at least [min_pnl] and whose pair
    passes the filter (no filter, an empty one, "All", or the pair itself);
    [totalCount] is the length of that list and the module globals are
    untouched. *)
Theorem listing_is_the_filtered_snapshot (args : gmap string string) (w : World)
    (min_pnl : Q) :
  match args !! "minPnl" with
  | Some text => float_of_str text = Some min_pnl
  | None => min_pnl = 0
  end ->
  (forall text, args !! "maxLatency" = Some text -> is_Some (int_of_str text)) ->
  exists resp w',
    handler args w = (Ret resp, w') /\
    opportunities resp `sublist_of` current_opportunities w /\
    (forall o, o ∈ opportunities resp <->
               o ∈ current_opportunities w /\ min_pnl <= o_netProfit o /\
               (args !! "pair" = None \/ args !! "pair" = Some "" \/
                args !! "pair" = Some "All" \/ args !! "pair" = Some (o_pair o))) /\
    totalCount resp = length (opportunities resp) /\
    same_globals w w'.
Proof.
  intros Hpnl Hlat.
  set (filtered := List.filter
                     (fun opp => bool_decide (min_pnl <= o_netProfit opp) &&
                                 pair_selected (args !! "pair") opp)
                     (current_opportunities w)).
  assert (Hsub : filtered `sublist_of` current_opportunities w).
  { unfold filtered. induction (current_opportunities w) as [|o l IH]; [constructor|].
    cbn [List.filter]. destruct (_ && _); [constructor | apply sublist_cons]; exact IH. }
  assert (Hiff : forall o, o ∈ filtered <->
               o ∈ current_opportunities w /\ min_pnl <= o_netProfit o /\
               (args !! "pair" = None \/ args !! "pair" = Some "" \/
                args !! "pair" = Some "All" \/ args !! "pair" = Some (o_pair o))).
  { intros o. unfold filtered. rewrite list_elem_of_In, filter_In, <- list_elem_of_In.
    rewrite andb_true_iff, bool_decide_eq_true, pair_selected_spec. tauto. }
  assert (Hrun : exists stamp,
             handler args w =
               (Ret (mkOpportunitiesResponse filtered (length filtered) stamp),
                set_clock_reads (S (clock_reads w)) w)).
  { unfold get_arbitrage_opportunities, bind, py_float, py_int, get, time_time, ret.
    destruct (args !! "minPnl") as [ptext|]; [rewrite Hpnl | subst min_pnl];
      (destruct (args !! "maxLatency") as [ltext|];
       [destruct (Hlat ltext eq_refl) as [n ->]|]);
      eexists; reflexivity. }
  destruct Hrun as [stamp Hrun].
  eexists _, _. split; [exact Hrun|]. cbn [opportunities totalCount].
  split; [exact Hsub|]. split; [exact Hiff|]. split; [reflexivity|]. repeat split.
Qed.

(** X15. Detection and listing compose: after a run that completes, a
    listing request without [minPnl] and [maxLatency] and without a pair
    filter (or with "All") returns the whole published list, because
    every published net profit is positive. *)
Theorem listing_after_generate (args : gmap string string) (w w' : World) :
  generate_arbitrage_opportunities hash clock w = (Ret tt, w') ->
  args !! "minPnl" = None ->
  args !! "maxLatency" = None ->
  args !! "pair" = None \/ args !! "pair" = Some "All" ->
  listing (fst (handler args w')) =
    Ret (current_opportunities w', length (current_opportunities w')).
Proof.
  intros Hrun Hpnl Hlat Hpair.
  assert (Hprof : Forall profitable (current_opportunities w')).
  { destruct (generate_outcome hash clock w) as (r1 & w1 & _ & _ & Hr).
    destruct r1 as [found|e]; [|rewrite Hr in Hrun; discriminate Hrun].
    destruct Hr as [Hfound Hgen]. cbv zeta in Hgen. rewrite Hgen in Hrun.
    inversion Hrun; subst w'. cbn. apply Forall_take. rewrite sort_perm. exact Hfound. }
  rewrite get_arbitrage_opportunities_eq, Hpnl, Hlat. cbv zeta.
  assert (Hall : List.filter
                   (fun opp => bool_decide (0 <= o_netProfit opp) &&
                               pair_selected (args !! "pair") opp)
                   (current_opportunities w') = current_opportunities w').
  { induction Hprof as [|o l Ho _ IH]; [reflexivity|].
    cbn [List.filter]. rewrite IH.
    assert (Hsel : pair_selected (args !! "pair") o = true).
    { apply pair_selected_spec. tauto. }
    rewrite Hsel, bool_decide_eq_true_2; [reflexivity|]. unfold profitable in Ho. lra. }
  rewrite Hall. reflexivity.
Qed.

Lemma synthetic_history_len (p : string) (indices : list nat) (base_price : Q) :
  length (synthetic_history hash p indices base_price) = length indices.
Proof.
  revert base_price. induction indices as [|i rest IH]; intros base_price; [reflexivity|].
  cbn [synthetic_history length]. rewrite IH. reflexivity.
Qed.

(** X16. The history endpoint always answers with exactly 20 entries and
    never changes the stored history: with 20 or more spreads stored the
    reply is the last 20 of them, untouched; the reply names the pair with
    every "-" turned into "/". *)
Theorem price_history_reply_shape (pair : string) (w : World) :
  exists resp w',
    get_price_history hash clock pair w = (Ret resp, w') /\
    length (h_history resp) = 20%nat /\
    h_pair resp = py_replace "-" "/" pair /\
    same_globals w w' /\
    let stored := default [] (price_history w !! py_replace "-" "/" pair) in
    ((20 <= length stored)%nat -> h_history resp = py_last 20 stored).
Proof.
  unfold get_price_history, bind, get, time_time, ret. cbn [fst snd].
  set (stored := default [] (price_history w !! py_replace "-" "/" pair)).
  eexists _, _. split; [reflexivity|]. cbn [h_history h_pair].
  split.
  { destruct (Nat.ltb_spec (length stored) 20) as [Hshort|Hlong].
    - rewrite py_last_short;
        rewrite length_app, synthetic_history_len, length_seq; lia.
    - unfold py_last. rewrite length_drop. lia. }
  split; [reflexivity|]. split; [repeat split|]. cbv zeta.
  intros Hlong. destruct (Nat.ltb_spec (length stored) 20) as [Hshort|_]; [lia|].
  reflexivity.
Qed.

End MoreHandlers.

(** *** Witnesses of the further properties *)

Lemma identify_dex_first_match_witness :
  identify_dex_from_route [unknown_step; orca_step; raydium_step] = "Orca".
Proof.
  assert (Hno : unmatched [unknown_step]).
  { intros step info Hin Hinfo dex_name program_ids pid Hdex Hpid.
    apply list_elem_of_singleton in Hin. subst step. inversion Hinfo; subst info.
    unfold DEX_PROGRAM_IDS in Hdex.
    set_unfold. destruct_or!; simplify_eq; set_unfold; destruct_or!; simplify_eq;
      vm_compute; reflexivity. }
  apply (proj1 (proj2 (identify_dex_first_match [unknown_step] [raydium_step] orca_step
                         (mkSwapInfo None (Some "whirLbMiicVdio4qvUfM5KAg6Ct8VwpYzGff3uctyCc") None)
                         Hno eq_refl))).
  - vm_compute. reflexivity.
  - vm_compute. reflexivity.
Defined.

Lemma rate_limit_check_frame_witness :
  api_call_times (snd (rate_limit_check (steady_clock 5) "jupiter" initial_world))
    !! "coingecko" = api_call_times initial_world !! "coingecko".
Proof.
  apply (proj1 (rate_limit_check_frame (steady_clock 5) "jupiter" initial_world
                  (snd (rate_limit_check (steady_clock 5) "jupiter" initial_world))
                  (fst (rate_limit_check (steady_clock 5) "jupiter" initial_world))
                  (surjective_pairing _))).
  discriminate.
Defined.

Lemma rate_limit_check_reopens_witness :
  exists w',
    rate_limit_check late_clock "jupiter" saturated_world = (Ret true, w') /\
    api_call_times w' !! "jupiter" = Some [late_clock (clock_reads saturated_world)].
Proof.
  apply (rate_limit_check_reopens late_clock "jupiter" saturated_world
           (replicate 10 0) 10).
  - reflexivity.
  - reflexivity.
  - vm_compute. repeat constructor; discriminate.
Defined.

Lemma first_reply_settles_witness :
  for_attempts (seq 0 (2 + 1))
    (fetch_attempt (steady_clock 1) half_jitter unit always_failing "jupiter"
                   JUPITER_QUOTE_API 2) initial_world =
    (Ret None,
     set_http_calls 1 (snd (rate_limit_check (steady_clock 1) "jupiter" initial_world))).
Proof.
  apply (first_reply_settles (steady_clock 1) half_jitter unit always_failing
           "jupiter" JUPITER_QUOTE_API 2 initial_world
           (snd (rate_limit_check (steady_clock 1) "jupiter" initial_world))
           500 None).
  - vm_compute. reflexivity.
  - reflexivity.
  - discriminate.
  - discriminate.
Defined.

Lemma fetched_data_was_sent_witness :
  exists k,
    (http_calls initial_world <= k <
     http_calls (snd (get_jupiter_quote_with_retry (steady_clock 1) half_jitter unit
                        always_answering "a" "b" 1000000 2 initial_world)))%nat /\
    always_answering k = Answers 200 (Some tt).
Proof.
  apply (fetched_data_was_sent (steady_clock 1) half_jitter unit always_answering
           "a" "b" 1000000 [] 2 initial_world).
  left. vm_compute. reflexivity.
Defined.

Lemma persistent_failure_schedule_witness :
  exists w',
    get_jupiter_quote_with_retry (steady_clock 1) half_jitter unit always_throttled
      "a" "b" 1000000 2 initial_world = (Ret None, w') /\
    http_calls w' = 3%nat /\
    slept w' = [inject_Z (2 ^ 0) + (1 # 2); inject_Z (2 ^ 1) + (1 # 2)].
Proof.
  destruct (persistent_failure_schedule (steady_clock 1) half_jitter unit always_throttled
              "jupiter" 2 10 "a" "b" 1000000 [] initial_world [])
    as (w' & Hjupiter & _ & Hhttp & Hslept).
  - reflexivity.
  - reflexivity.
  - cbn. lia.
  - intros k. cbn. left. reflexivity.
  - exists w'. split; [apply Hjupiter; reflexivity|]. split; [exact Hhttp | exact Hslept].
Defined.

Lemma published_opportunities_sound_witness :
  Forall (fun o => o_pair o ∈ (fst <$> TRADING_PAIRS) /\
                   sound_opportunity zero_hash o /\
                   0.01 <= o_estimatedGas o /\ o_estimatedGas o <= 0.03)
         (current_opportunities published_world).
Proof.
  apply (published_opportunities_sound zero_hash frozen_clock three_venue_world).
  vm_compute. reflexivity.
Defined.

Lemma no_usable_quotes_witness :
  exists w',
    generate_arbitrage_opportunities zero_hash late_clock published_world = (Ret tt, w') /\
    current_opportunities w' = [] /\
    price_history w' = price_history published_world.
Proof.
  apply (no_usable_quotes_no_opportunities zero_hash late_clock published_world).
  intros pair entry Hpair Hentry. right. intros n.
  unfold TRADING_PAIRS in Hpair. cbn in Hpair.
  set_unfold. destruct_or!; subst pair; vm_compute in Hentry; inversion Hentry; subst entry;
    vm_compute; reflexivity.
Defined.

Lemma published_are_the_best_witness :
  exists found left_out,
    fst (for_each (fst <$> TRADING_PAIRS) (scan_pair zero_hash frozen_clock) []
                  three_venue_world) = Ret found /\
    found ≡ₚ current_opportunities published_world ++ left_out /\
    length left_out = (length found - 10)%nat.
Proof.
  destruct (for_each (fst <$> TRADING_PAIRS) (scan_pair zero_hash frozen_clock) []
                     three_venue_world) as [[found|e] w1] eqn:Hloop;
    [|vm_compute in Hloop; discriminate Hloop].
  destruct (published_are_the_best zero_hash frozen_clock three_venue_world w1
              published_world found Hloop)
    as (left_out & Hperm & Hlen & _).
  - vm_compute. reflexivity.
  - exists found, left_out. split; [reflexivity|]. split; [exact Hperm | exact Hlen].
Defined.

Lemma simulate_trade_known_id_witness :
  exists latency impact stamp w',
    simulate_trade zero_hash frozen_clock (Some "SOL-USDC-Raydium-Orca-0") (Some 500%Z)
                   published_world =
      (Ret (TradeDone latency
              (o_netProfit (default (venue_opportunity) (current_opportunities published_world !! 1%nat)))
              (o_netProfit (default (venue_opportunity) (current_opportunities published_world !! 1%nat))
               * (inject_Z 500 / 1000) * (1 - impact / 100))
              impact
              (o_estimatedGas (default (venue_opportunity) (current_opportunities published_world !! 1%nat)))
              (o_route (default (venue_opportunity) (current_opportunities published_world !! 1%nat)))
              stamp), w') /\
    (100 <= latency < 600)%Z /\
    slept w' = slept published_world ++ [inject_Z latency / 1000].
Proof.
  destruct (simulate_trade_known_id zero_hash frozen_clock "SOL-USDC-Raydium-Orca-0"
              (Some 500%Z) published_world
              (take 1 (current_opportunities published_world))
              (drop 2 (current_opportunities published_world))
              (default venue_opportunity (current_opportunities published_world !! 1%nat)))
    as (latency & impact & stamp & w' & Hrun & Hlat & _ & _ & Hslept & _).
  - vm_compute. reflexivity.
  - intros o Ho. vm_compute in Ho. apply list_elem_of_singleton in Ho. subst o.
    discriminate.
  - vm_compute. reflexivity.
  - exists latency, impact, stamp, w'. split; [exact Hrun|]. split; [exact Hlat | exact Hslept].
Defined.

Lemma listing_is_the_filtered_snapshot_witness :
  exists resp w',
    get_arbitrage_opportunities frozen_clock decimal_float decimal_int
      {[ "minPnl" := "1"; "pair" := "SOL/USDC" ]} published_world = (Ret resp, w') /\
    opportunities resp `sublist_of` current_opportunities published_world /\
    totalCount resp = length (opportunities resp).
Proof.
  destruct (listing_is_the_filtered_snapshot frozen_clock decimal_float decimal_int
              {[ "minPnl" := "1"; "pair" := "SOL/USDC" ]} published_world 1)
    as (resp & w' & Hrun & Hsub & _ & Hcount & _).
  - vm_compute. reflexivity.
  - intros text Htext. vm_compute in Htext. discriminate Htext.
  - exists resp, w'. split; [exact Hrun|]. split; [exact Hsub | exact Hcount].
Defined.

Lemma listing_after_generate_witness :
  listing (fst (get_arbitrage_opportunities frozen_clock decimal_float decimal_int
                  {[ "pair" := "All" ]} published_world)) =
    Ret (current_opportunities published_world,
         length (current_opportunities published_world)).
Proof.
  apply (listing_after_generate zero_hash frozen_clock decimal_float decimal_int
           {[ "pair" := "All" ]} three_venue_world published_world).
  - vm_compute. reflexivity.
  - reflexivity.
  - reflexivity.
  - right. reflexivity.
Defined.
